(** * prproj_checker: project references against a media folder

    A shallow embedding of the core of [main_pr_aepx.py]: the path
    normaliser [_clean_to_filename], the project reader
    [parse_project_filenames], the folder scanner [scan_folder_filenames],
    the ignore filter [is_ignored] and the reconciler [compare_filenames],
    together with the parts of the Python runtime they call
    (str methods, pathlib's pure paths, the UTF-8 codecs).

    Conventions.
    - A Python [str] is a list of Unicode code points ([N]); a [bytes]
      object is a list of octets ([N] below 256).
    - A Python [set] of strings is a [gset]; [sorted] is a merge sort of its
      elements under code-point lexicographic order.
    - An exception is a value of [exn]; effectful functions live in the
      monad [io], which also records the order of the I/O and parsing
      steps in a trace.
    - pathlib and the codecs follow CPython 3.11. *)

From Stdlib Require Import NArith Ascii String.
From stdpp Require Import base option list sorting gmap.

Local Open Scope N_scope.
Set Warnings "-register-all".

(** ** Python strings *)

Abbreviation pystr := (list N).
Abbreviation pybytes := (list N).

Module Py.

(** A literal: the code points of an ASCII string of the source. *)
Definition lit (s : string) : pystr :=
  List.map N_of_ascii (list_ascii_of_string s).

(** [str.isspace] of one code point (Unicode 14 white space). *)
Definition isspace (c : N) : bool :=
  ((9 <=? c) && (c <=? 13)) || ((28 <=? c) && (c <=? 32))
  || (c =? 133) || (c =? 160) || (c =? 5760)
  || ((8192 <=? c) && (c <=? 8202))
  || (c =? 8232) || (c =? 8233) || (c =? 8239) || (c =? 8287)
  || (c =? 12288).

(** Membership of a code point in the [chars] argument of [str.strip]. *)
Definition mem (chars : pystr) (c : N) : bool :=
  existsb (N.eqb c) chars.

Fixpoint lstrip_by (p : N → bool) (s : pystr) : pystr :=
  match s with
  | c :: s' => if p c then lstrip_by p s' else s
  | [] => []
  end.

Definition rstrip_by (p : N → bool) (s : pystr) : pystr :=
  rev (lstrip_by p (rev s)).

(** [do_strip]/[do_argstrip] of CPython: the left index is advanced first,
    then the right index is moved back, never past the left one. *)
Definition strip_by (p : N → bool) (s : pystr) : pystr :=
  rstrip_by p (lstrip_by p s).

(** [s.strip()] *)
Definition strip (s : pystr) : pystr := strip_by isspace s.
(** [s.strip(chars)] and [s.lstrip(chars)] *)
Definition strip_chars (chars s : pystr) : pystr := strip_by (mem chars) s.
Definition lstrip_chars (chars s : pystr) : pystr := lstrip_by (mem chars) s.

(** [s == t] *)
Definition eqb (s t : pystr) : bool := bool_decide (s = t).

(** [s.startswith(p)] and [s.endswith(p)] *)
Fixpoint startswith (p s : pystr) : bool :=
  match p, s with
  | [], _ => true
  | a :: p', b :: s' => (a =? b) && startswith p' s'
  | _ :: _, [] => false
  end.

Definition endswith (p s : pystr) : bool := startswith (rev p) (rev s).

(** [p in s] for strings: [p] occurs as a contiguous slice of [s]. *)
Fixpoint contains (p s : pystr) : bool :=
  startswith p s ||
  match s with
  | [] => false
  | _ :: s' => contains p s'
  end.

(** [c in s] for a single character. *)
Definition has_char (c : N) (s : pystr) : bool := existsb (N.eqb c) s.

(** [s[a:b]] for non-negative [a], [b]. *)
Definition slice (a b : nat) (s : pystr) : pystr := take (b - a) (drop a s).

(** [s.replace(a, b)] for one-character [a] and [b]. *)
Definition replace_char (a b : N) (s : pystr) : pystr :=
  List.map (λ c, if c =? a then b else c) s.

(** [s.split(sep)] for a one-character separator; never the empty list. *)
Fixpoint split (sep : N) (s : pystr) : list pystr :=
  match s with
  | [] => [[]]
  | c :: s' =>
      if c =? sep then [] :: split sep s'
      else match split sep s' with
           | f :: fs => (c :: f) :: fs
           | [] => [[c]]
           end
  end.

(** [s.find(sep, start)] for a one-character [sep]: [None] stands for -1. *)
Fixpoint find_from_aux (sep : N) (s : pystr) (i : nat) : option nat :=
  match s with
  | [] => None
  | c :: s' => if c =? sep then Some i else find_from_aux sep s' (S i)
  end.

Definition find_from (sep : N) (start : nat) (s : pystr) : option nat :=
  find_from_aux sep (drop start s) start.

(** [s.rfind(c)] for a one-character [c]. *)
Fixpoint rfind_aux (c : N) (s : pystr) (i : nat) (last : option nat)
  : option nat :=
  match s with
  | [] => last
  | d :: s' => rfind_aux c s' (S i) (if d =? c then Some i else last)
  end.

Definition rfind (c : N) (s : pystr) : option nat := rfind_aux c s 0%nat None.

(** [str.lower], one code point at a time.  It is exact on every code
    point whose lower-case form holds an ASCII character: the ASCII
    capitals, U+0130 and U+212A.  Any other code point is left as it is;
    Python may map it to other non-ASCII code points, which the program
    cannot observe, as it only compares lower-cased text with ASCII
    constants. *)
Definition lower_cp (c : N) : pystr :=
  if (65 <=? c) && (c <=? 90) then [c + 32]
  else if c =? 304 then [105; 775]
  else if c =? 8490 then [107]
  else [c].

Definition lower (s : pystr) : pystr := concat (List.map lower_cp s).

End Py.

(** ** pathlib's pure paths (CPython 3.11) *)

Module Pathlib.
Import Py.

Inductive flavour := Windows | Posix.

(** [_flavour.sep]: a backslash on Windows, a slash on POSIX. *)
Definition sep (f : flavour) : N :=
  match f with Windows => 92 | Posix => 47 end.

Definition nonempty (s : pystr) : bool :=
  match s with [] => false | _ => true end.

(** [_WindowsFlavour.ext_namespace_prefix], the four characters
    backslash, backslash, question mark, backslash. *)
Definition ext_namespace_prefix : pystr := [92; 92; 63; 92].

(** [_WindowsFlavour._split_extended_path] *)
Definition _split_extended_path (s : pystr) : pystr * pystr :=
  if startswith ext_namespace_prefix s then
    let prefix := slice 0 4 s in
    let s := drop 4 s in
    if startswith (lit "UNC" ++ [92]) s
    then (prefix ++ slice 0 3 s, 92 :: drop 3 s)
    else (prefix, s)
  else ([], s).

(** [first in self.drive_letters], [first] being [part[0:1]]. *)
Definition in_drive_letters (first : pystr) : bool :=
  match first with
  | [c] => ((65 <=? c) && (c <=? 90)) || ((97 <=? c) && (c <=? 122))
  | _ => false
  end.

(** [_WindowsFlavour.splitroot]: drive, root and the rest of one part. *)
Definition windows_splitroot (part0 : pystr) : pystr * pystr * pystr :=
  let '(prefix, part) :=
    if eqb (slice 1 2 part0) [92] && eqb (slice 0 1 part0) [92]
    then _split_extended_path part0
    else ([], part0) in
  let first := slice 0 1 part in
  let second := slice 1 2 part in
  let third := slice 2 3 part in
  let unc :=
    if eqb second [92] && eqb first [92] && negb (eqb third [92]) then
      match find_from 92 2 part with
      | Some index =>
          let index2 := find_from 92 (index + 1) part in
          if bool_decide (index2 = Some (index + 1)%nat) then None
          else
            let index2 := default (length part) index2 in
            if nonempty prefix
            then Some (prefix ++ slice 1 index2 part, [92],
                       drop (index2 + 1) part)
            else Some (take index2 part, [92], drop (index2 + 1) part)
      | None => None
      end
    else None in
  match unc with
  | Some r => r
  | None =>
      let '(drv, part, first) :=
        if eqb second [58] && in_drive_letters first
        then (take 2 part, drop 2 part, third)
        else ([], part, first) in
      let '(root, part) :=
        if eqb first [92] then (first, lstrip_chars [92] part)
        else ([], part) in
      (prefix ++ drv, root, part)
  end.

(** [_PosixFlavour.splitroot] *)
Definition posix_splitroot (part : pystr) : pystr * pystr * pystr :=
  if startswith [47] part then
    let stripped_part := lstrip_chars [47] part in
    if Nat.eqb (length part - length stripped_part) 2
    then ([], [47; 47], stripped_part)
    else ([], [47], stripped_part)
  else ([], [], part).

Definition splitroot (f : flavour) : pystr → pystr * pystr * pystr :=
  match f with Windows => windows_splitroot | Posix => posix_splitroot end.

(** A component that [parse_parts] keeps: not empty and not a lone dot. *)
Definition kept (x : pystr) : bool := nonempty x && negb (eqb x [46]).

(** [_Flavour.parse_parts] on the one-element tuple [(s,)]: drive, root
    and the list of parts, the anchor (drive plus root) first when there
    is one. *)
Definition parse_parts (f : flavour) (s : pystr)
  : pystr * pystr * list pystr :=
  if nonempty s then
    let part :=
      match f with Windows => replace_char 47 92 s | Posix => s end in
    let '(drv, root, rel) := splitroot f part in
    let parsed :=
      if has_char (sep f) rel
      then List.filter kept (split (sep f) rel)
      else if kept rel then [rel] else [] in
    let anchor :=
      if nonempty drv || nonempty root then [drv ++ root] else [] in
    (drv, root, anchor ++ parsed)
  else ([], [], []).

(** [PurePath.name] of [PureWindowsPath(s)] or [PurePosixPath(s)] *)
Definition name (f : flavour) (s : pystr) : pystr :=
  let '(drv, root, parts) := parse_parts f s in
  if Nat.eqb (length parts)
       (if nonempty drv || nonempty root then 1 else 0)%nat
  then []
  else List.last parts [].

(** [PurePath.suffix] *)
Definition suffix (f : flavour) (s : pystr) : pystr :=
  let name := name f s in
  match rfind 46 name with
  | Some i =>
      if Nat.ltb 0 i && Nat.ltb i (length name - 1) then drop i name else []
  | None => []
  end.

(** [PurePath.suffixes] *)
Definition suffixes (f : flavour) (s : pystr) : list pystr :=
  let name := name f s in
  if endswith [46] name then []
  else
    let name := lstrip_chars [46] name in
    List.map (λ x, 46 :: x) (tail (split 46 name)).

End Pathlib.

(** ** The UTF-8 codecs *)

Module Codec.
Import Py.

(** The [errors] argument of [bytes.decode]. *)
Inductive errors := Strict | Ignore.

(** [IS_CONTINUATION_BYTE]: the two top bits are 10. *)
Definition is_continuation_byte (b : N) : bool := (128 <=? b) && (b <=? 191).

(** What the decoder does at an invalid sequence: ['strict'] raises
    [UnicodeDecodeError] ([None]); ['ignore'] drops the bytes of the
    invalid sequence and goes on with [rest], the decoding of the bytes
    after it. *)
Definition on_error (e : errors) (rest : option pystr) : option pystr :=
  match e with Strict => None | Ignore => rest end.

Definition emit (c : N) (rest : option pystr) : option pystr :=
  match rest with Some s => Some (c :: s) | None => None end.

(** [codecs.utf_8_decode(input, errors, True)], after CPython's
    [utf8_decode]: an invalid start byte is an error of length 1; an
    invalid continuation byte ends the error before that byte; input that
    stops inside a sequence is an error up to the end of the input. *)
Fixpoint utf_8_decode (e : errors) (s : pybytes) : option pystr :=
  match s with
  | [] => Some []
  | ch :: s1 =>
    if ch <? 128 then emit ch (utf_8_decode e s1)
    else if ch <? 224 then
      if ch <? 194 then on_error e (utf_8_decode e s1)
      else match s1 with
           | [] => on_error e (Some [])
           | ch2 :: s2 =>
             if negb (is_continuation_byte ch2)
             then on_error e (utf_8_decode e s1)
             else emit (N.shiftl ch 6 + ch2 - 12416) (utf_8_decode e s2)
           end
    else if ch <? 240 then
      match s1 with
      | [] => on_error e (Some [])
      | ch2 :: s2 =>
        if negb (is_continuation_byte ch2)
           || (if ch2 <? 160 then ch =? 224 else ch =? 237)
        then on_error e (utf_8_decode e s1)
        else match s2 with
             | [] => on_error e (Some [])
             | ch3 :: s3 =>
               if negb (is_continuation_byte ch3)
               then on_error e (utf_8_decode e s2)
               else emit (N.shiftl ch 12 + N.shiftl ch2 6 + ch3 - 925824)
                         (utf_8_decode e s3)
             end
      end
    else if ch <? 245 then
      match s1 with
      | [] => on_error e (Some [])
      | ch2 :: s2 =>
        if negb (is_continuation_byte ch2)
           || (if ch2 <? 144 then ch =? 240 else ch =? 244)
        then on_error e (utf_8_decode e s1)
        else match s2 with
             | [] => on_error e (Some [])
             | ch3 :: s3 =>
               if negb (is_continuation_byte ch3)
               then on_error e (utf_8_decode e s2)
               else match s3 with
                    | [] => on_error e (Some [])
                    | ch4 :: s4 =>
                      if negb (is_continuation_byte ch4)
                      then on_error e (utf_8_decode e s3)
                      else emit (N.shiftl ch 18 + N.shiftl ch2 12
                                 + N.shiftl ch3 6 + ch4 - 63447168)
                                (utf_8_decode e s4)
                    end
             end
      end
    else on_error e (utf_8_decode e s1)
  end.

(** [codecs.BOM_UTF8] *)
Definition BOM_UTF8 : pybytes := [239; 187; 191].

(** [encodings.utf_8_sig.decode]: [data.decode('utf-8-sig', errors)] *)
Definition utf_8_sig_decode (e : errors) (input : pybytes) : option pystr :=
  if eqb (slice 0 3 input) BOM_UTF8
  then utf_8_decode e (drop 3 input)
  else utf_8_decode e input.

(** Universal newlines of a text-mode read ([newline=None]): a carriage
    return, with the line feed after it if there is one, becomes a line
    feed. *)
Fixpoint translate_newlines (s : pystr) : pystr :=
  match s with
  | [] => []
  | c :: s' =>
    if c =? 13 then
      10 :: match s' with
            | d :: s'' => if d =? 10 then translate_newlines s''
                          else translate_newlines s'
            | [] => []
            end
    else c :: translate_newlines s'
  end.

(** One code point in UTF-8; a surrogate cannot be encoded. *)
Definition encode_cp (c : N) : option pybytes :=
  if c <? 128 then Some [c]
  else if c <? 2048 then Some [192 + N.shiftr c 6; 128 + N.land c 63]
  else if (55296 <=? c) && (c <=? 57343) then None
  else if c <? 65536 then
    Some [224 + N.shiftr c 12; 128 + N.land (N.shiftr c 6) 63;
          128 + N.land c 63]
  else
    Some [240 + N.shiftr c 18; 128 + N.land (N.shiftr c 12) 63;
          128 + N.land (N.shiftr c 6) 63; 128 + N.land c 63].

(** [s.encode("utf-8")]; [None] stands for [UnicodeEncodeError]. *)
Fixpoint utf_8_encode (s : pystr) : option pybytes :=
  match s with
  | [] => Some []
  | c :: s' =>
    match encode_cp c, utf_8_encode s' with
    | Some b, Some bs => Some (b ++ bs)
    | _, _ => None
    end
  end.

End Codec.

(** ** The environment of a run *)

(** An element of a parsed tree, as [xml.etree.ElementTree] and
    [lxml.etree] expose it: [tag], [text] ([None] when absent) and the
    children.  For a comment or a processing instruction, which only an
    lxml tree contains, [tag] is a factory function and not a string. *)
Inductive tag_value :=
  | TagStr (t : pystr)
  | TagFunc.

Inductive Element :=
  | Elem (tag : tag_value) (text : option pystr) (children : list Element).

(** What a symbolic link resolves to. *)
Inductive link_target :=
  | ToRegularFile
  | ToDirectory
  | ToSpecial
  | Dangling.

(** A directory entry as [scandir] and [stat] see it: a regular file with
    its bytes, a directory with its named entries, a symbolic link, or a
    special file (device, socket, pipe). *)
Inductive node :=
  | RegularFile (data : pybytes)
  | Directory (entries : list (pystr * node))
  | Symlink (target : link_target)
  | Special.

(** Everything outside the program that a run depends on: the platform
    (which pure-path class [Path] is), the file system, and the results
    of the library calls, whose sources are not part of the repository.
    - [os_stat p]: the file the path [p] resolves to, links followed, if
      any;
    - [gzip_decompress]: [None] when the gzip reader raises;
    - [ET_fromstring], [ET_parse_bytes]: the strict parser on a string and
      on the bytes of a file, [None] standing for [ParseError];
    - [lxml]: [None] when [import lxml.etree] fails; otherwise the
      recovering parser, [None] when it raises or yields no root. *)
Record Env := {
  os_flavour : Pathlib.flavour;
  os_stat : pystr → option node;
  gzip_decompress : pybytes → option pybytes;
  ET_fromstring : pystr → option Element;
  ET_parse_bytes : pybytes → option Element;
  lxml : option (pybytes → option Element);
}.

(** ** Exceptions, events and the monad of effectful code *)

Inductive exn :=
  | ValueError (msg : pystr)
  | ParseError
  | UnboundLocalError (name : pystr)
  | UnicodeDecodeError
  | UnicodeEncodeError
  | ImportError
  | AttributeError
  | DecompressError
  | OSError (path : pystr).

(** The observable steps of a run, in the order they happen. *)
Inductive event :=
  | EvOpen (path : pystr)
  | EvStrictParse
  | EvLenientParse
  | EvScan (folder : pystr).

Inductive outcome (A : Type) :=
  | Return (a : A)
  | Raise (e : exn).
Arguments Return {A} a.
Arguments Raise {A} e.

(** A computation: the events it performed and how it ended. *)
Definition io (A : Type) : Type := list event * outcome A.

Global Instance io_ret : MRet io := λ A a, ([], Return a).

Global Instance io_bind : MBind io := λ A B k m,
  match m with
  | (t, Return a) => let '(t', r) := k a in (t ++ t', r)
  | (t, Raise e) => (t, Raise e)
  end.

Definition raise {A} (e : exn) : io A := ([], Raise e).

Definition perform (ev : event) : io unit := ([ev], Return ()).

(** [try: body except Exception: handler] *)
Definition try_except {A} (body handler : io A) : io A :=
  match body with
  | (t, Return a) => (t, Return a)
  | (t, Raise _) => let '(t', r) := handler in (t ++ t', r)
  end.

(** An optional library result, [None] raising [e]. *)
Definition or_raise {A} (e : exn) (o : option A) : io A :=
  match o with Some a => mret a | None => raise e end.

Definition trace {A} (m : io A) : list event := m.1.
Definition result {A} (m : io A) : outcome A := m.2.

(** ** The Python sets of strings and [sorted] *)

(** [s <= t] on strings: lexicographic on code points. *)
Fixpoint str_leb (s t : pystr) : bool :=
  match s, t with
  | [], _ => true
  | _ :: _, [] => false
  | a :: s', b :: t' => (a <? b) || ((a =? b) && str_leb s' t')
  end.

Definition str_le : relation pystr := λ s t, str_leb s t = true.

Global Instance str_le_dec : RelDecision str_le.
Proof. intros s t. unfold str_le. apply _. Defined.

(** [sorted(s)] for a set of strings. *)
Definition sorted (s : gset pystr) : list pystr :=
  merge_sort str_le (elements s).

(** ** The program *)

(** [_clean_to_filename] *)
Definition _clean_to_filename (raw : pystr) : pystr :=
  let s := Py.strip_chars [39] (Py.strip_chars [34] (Py.strip raw)) in
  let s := if Py.startswith [92; 92; 63; 92] s then drop 4 s else s in
  let name := Pathlib.name Pathlib.Windows s in
  if negb (Pathlib.nonempty name) || Py.eqb name s
  then Pathlib.name Pathlib.Posix s
  else name.

(** [_clean_to_filename] from its second line on: what is done with the
    stripped string [s]. *)
Definition name_of_stripped (s : pystr) : pystr :=
  let s := if Py.startswith [92; 92; 63; 92] s then drop 4 s else s in
  let name := Pathlib.name Pathlib.Windows s in
  if negb (Pathlib.nonempty name) || Py.eqb name s
  then Pathlib.name Pathlib.Posix s
  else name.

(** [root_xml.iter()]: the element itself, then its descendants, in
    document order. *)
Fixpoint iter (e : Element) : list Element :=
  match e with
  | Elem _ _ children => e :: flat_map iter children
  end.

Definition candidate_tags : list pystr :=
  [Py.lit "Path"; Py.lit "FilePath"; Py.lit "ActualMediaFilePath";
   Py.lit "AbsolutePath"].

(** [elem.text and ...]: the text is present and not empty. *)
Definition truthy_text (text : option pystr) : option pystr :=
  match text with
  | Some (c :: s) => Some (c :: s)
  | _ => None
  end.

(** The body of the loop over the elements.  [elem.tag.lower()] raises
    [AttributeError] when the tag is not a string; it is evaluated only
    for an element with text. *)
Definition visit (elem : Element) (filenames : gset pystr)
  : io (gset pystr) :=
  match elem with
  | Elem tag text _ =>
    match truthy_text text with
    | None => mret filenames
    | Some text =>
      match tag with
      | TagFunc => raise AttributeError
      | TagStr tag =>
        if existsb (λ t, Py.contains (Py.lower t) (Py.lower tag))
             candidate_tags
        then
          let name := _clean_to_filename text in
          if Py.has_char 46 name then mret ({[ name ]} ∪ filenames)
          else mret filenames
        else mret filenames
      end
    end
  end.

(** [for elem in root_xml.iter(): ...] *)
Fixpoint collect (elems : list Element) (filenames : gset pystr)
  : io (gset pystr) :=
  match elems with
  | [] => mret filenames
  | elem :: elems' => filenames ← visit elem filenames; collect elems' filenames
  end.

(** [project_path.open('rb')] followed by reading the whole file. *)
Definition open_rb (env : Env) (path : pystr) : io pybytes :=
  _ ← perform (EvOpen path);
  match os_stat env path with
  | Some (RegularFile data) => mret data
  | _ => raise (OSError path)
  end.

(** [gzip.open(f, 'rt', encoding='utf-8').read()]: the whole stream is
    decompressed, decoded as strict UTF-8, and its newlines translated. *)
Definition gzip_read_text (env : Env) (data : pybytes) : io pystr :=
  raw ← or_raise DecompressError (gzip_decompress env data);
  text ← or_raise UnicodeDecodeError (Codec.utf_8_decode Codec.Strict raw);
  mret (Codec.translate_newlines text).

(** [f.read().decode('utf-8-sig', errors='ignore')] *)
Definition raw_read_text (data : pybytes) : io pystr :=
  or_raise UnicodeDecodeError (Codec.utf_8_sig_decode Codec.Ignore data).

(** The [with] block of the compressed branch: the value of [content]. *)
Definition read_content (env : Env) (project_path : pystr) : io pystr :=
  f ← open_rb env project_path;
  let magic := Py.slice 0 2 f in
  if Py.eqb magic [31; 139]
  then gzip_read_text env f
  else raw_read_text f.

(** [ET.fromstring(content)] *)
Definition ET_fromstring_io (env : Env) (content : pystr) : io Element :=
  _ ← perform EvStrictParse;
  or_raise ParseError (ET_fromstring env content).

(** [ET.parse(project_path).getroot()] *)
Definition ET_parse (env : Env) (project_path : pystr) : io Element :=
  f ← open_rb env project_path;
  _ ← perform EvStrictParse;
  or_raise ParseError (ET_parse_bytes env f).

(** Reading the local variable [content], which only the compressed
    branch assigns. *)
Definition load_content (content : option pystr) : io pystr :=
  or_raise (UnboundLocalError (Py.lit "content")) content.

(** The body of the [try]: import lxml, build the recovering parser,
    encode [content] and parse it. *)
Definition lenient_parse (env : Env) (content : option pystr) : io Element :=
  LET ← or_raise ImportError (lxml env);
  content ← load_content content;
  bytes ← or_raise UnicodeEncodeError (Codec.utf_8_encode content);
  _ ← perform EvLenientParse;
  or_raise ParseError (LET bytes).

(** [project_path.suffixes[-2:]] *)
Definition last_two (l : list pystr) : list pystr :=
  drop (length l - 2) l.

(** The message of the [ValueError]: nine CJK characters (unsupported
    project format, full-width colon) and then the suffix. *)
Definition unsupported_format (suffix : pystr) : pystr :=
  [19981; 25903; 25588; 30340; 23560; 26696; 26684; 24335; 65306] ++ suffix.

(** The test of the first branch of [parse_project_filenames]. *)
Definition is_prproj (env : Env) (project_path : pystr) : bool :=
  let suffix := Py.lower (Pathlib.suffix (os_flavour env) project_path) in
  Py.eqb suffix (Py.lit ".prproj")
  || bool_decide (last_two (Pathlib.suffixes (os_flavour env) project_path)
                  = [Py.lit ".prproj"; Py.lit ".gz"]).

(** The test of the second branch. *)
Definition is_aepx (env : Env) (project_path : pystr) : bool :=
  Py.eqb (Py.lower (Pathlib.suffix (os_flavour env) project_path))
         (Py.lit ".aepx").

(** [parse_project_filenames] *)
Definition parse_project_filenames (env : Env) (project_path : pystr)
  : io (gset pystr) :=
  let suffix := Py.lower (Pathlib.suffix (os_flavour env) project_path) in
  content ←
    (if is_prproj env project_path then
       content ← read_content env project_path;
       _ ← ET_fromstring_io env content;
       mret (Some content)
     else if is_aepx env project_path then
       _ ← ET_parse env project_path;
       mret None
     else raise (ValueError (unsupported_format suffix)));
  root_xml ←
    try_except (lenient_parse env content)
               (content ← load_content content; ET_fromstring_io env content);
  collect (iter root_xml) ∅.

(** [f.is_file()]: a regular file, or a link that resolves to one. *)
Definition is_file (f : node) : bool :=
  match f with
  | RegularFile _ => true
  | Symlink ToRegularFile => true
  | _ => false
  end.

(** [folder_path.rglob('*')]: every entry of the directory, and every
    entry of each real sub-directory; a linked directory is listed but not
    entered, and a path that is not a directory yields nothing. *)
Fixpoint rglob (folder : node) : list (pystr * node) :=
  match folder with
  | Directory entries =>
      entries ++ flat_map (λ e, let '(_, child) := e in rglob child) entries
  | _ => []
  end.

(** [Path(folder_path).rglob('*')], the folder's own link followed. *)
Definition rglob_path (env : Env) (folder_path : pystr)
  : list (pystr * node) :=
  match os_stat env folder_path with
  | Some folder => rglob folder
  | None => []
  end.

(** [scan_folder_filenames] *)
Definition scan_folder_filenames (env : Env) (folder_path : pystr)
  : io (gset pystr) :=
  _ ← perform (EvScan folder_path);
  mret (list_to_set
          (List.map fst (List.filter (λ f, is_file f.2)
                                     (rglob_path env folder_path)))).

Definition IGNORE_EXTENSIONS : list pystr :=
  [Py.lit ".pek"; Py.lit ".epr"; Py.lit ".cfa"].
Definition IGNORE_SUBSTRINGS : list pystr :=
  [Py.lit "_proxy"; Py.lit "_subclip"].

(** [is_ignored] *)
Definition is_ignored (filename : pystr) : bool :=
  let lower := Py.lower filename in
  if existsb (λ ext, Py.endswith ext lower) IGNORE_EXTENSIONS then true
  else if existsb (λ sub, Py.contains sub lower) IGNORE_SUBSTRINGS then true
  else false.

(** [{f for f in files if not is_ignored(f)}] *)
Definition not_ignored (files : gset pystr) : gset pystr :=
  filter (λ f, is_ignored f = false) files.

(** [compare_filenames] *)
Definition compare_filenames (env : Env) (project_file folder_path : pystr)
  : io (list pystr * list pystr * list pystr) :=
  project_files_raw ← parse_project_filenames env project_file;
  actual_files_raw ← scan_folder_filenames env folder_path;
  let project_files := not_ignored project_files_raw in
  let actual_files := not_ignored actual_files_raw in
  let matched := sorted (project_files ∩ actual_files) in
  let missing := sorted (project_files ∖ actual_files) in
  let extra := sorted (actual_files ∖ project_files) in
  mret (matched, missing, extra).

(** ** Reference definitions for the claims

    [spec_clean_to_filename] is the path normaliser as the specification
    words it: surrounding white space and a single layer of enclosing
    single or double quotes are stripped, then the extended-length prefix
    is removed and the final component taken as in the program. *)

Definition strip_one_quote_layer (s : pystr) : pystr :=
  match s with
  | q :: rest =>
    if (q =? 34) || (q =? 39) then
      match rev rest with
      | q' :: mid => if q' =? q then rev mid else s
      | [] => s
      end
    else s
  | [] => []
  end.

Definition spec_clean_to_filename (raw : pystr) : pystr :=
  let s := strip_one_quote_layer (Py.strip raw) in
  let s := if Py.startswith [92; 92; 63; 92] s then drop 4 s else s in
  let name := Pathlib.name Pathlib.Windows s in
  if negb (Pathlib.nonempty name) || Py.eqb name s
  then Pathlib.name Pathlib.Posix s
  else name.

(** [beneath folder name f]: the folder holds, at any depth below it and
    without passing through a symbolic link, an entry [name] that is the
    file [f]. *)
Inductive beneath : node → pystr → node → Prop :=
  | beneath_entry entries name f :
      (name, f) ∈ entries → beneath (Directory entries) name f
  | beneath_deeper entries dname sub name f :
      (dname, sub) ∈ entries → beneath sub name f →
      beneath (Directory entries) name f.

(** ** Path objects (CPython 3.11)

    A path object is kept as pathlib keeps it: the drive, the root and
    the list of parts that [parse_parts] gave, the anchor first when
    there is one. *)

Module PurePath.
Import Py.

Definition t : Type := pystr * pystr * list pystr.

(** [Path(s)] *)
Definition of_str (f : Pathlib.flavour) (s : pystr) : t :=
  Pathlib.parse_parts f s.

(** [PurePath.name] *)
Definition name (p : t) : pystr :=
  let '(drv, root, parts) := p in
  if Nat.eqb (length parts)
       (if Pathlib.nonempty drv || Pathlib.nonempty root then 1 else 0)%nat
  then []
  else List.last parts [].

(** [PurePath.parent]: the path itself when it is only an anchor,
    otherwise the path of [parts[:-1]]. *)
Definition parent (p : t) : t :=
  let '(drv, root, parts) := p in
  if Nat.eqb (length parts) 1
     && (Pathlib.nonempty drv || Pathlib.nonempty root)
  then p
  else (drv, root, removelast parts).

(** [len(p.parents)], [_PathParents.__len__]; an anchored path always
    has its anchor among its parts. *)
Definition len_parents (p : t) : nat :=
  let '(drv, root, parts) := p in
  if Pathlib.nonempty drv || Pathlib.nonempty root
  then (length parts - 1)%nat
  else length parts.

(** [PurePath.stem] *)
Definition stem (p : t) : pystr :=
  let name := name p in
  match rfind 46 name with
  | Some i =>
      if Nat.ltb 0 i && Nat.ltb i (length name - 1) then take i name
      else name
  | None => name
  end.

End PurePath.

(** ** The project label *)

(** The anchor that [parse_parts] puts in front of the parts: drive and
    root in one string, when there is a drive or a root. *)
Definition anchor_of (drv root : pystr) : list pystr :=
  if Pathlib.nonempty drv || Pathlib.nonempty root then [drv ++ root] else [].

(** The seven CJK characters that [extract_project_label] looks for in
    the name of the folder that holds the project file. *)
Definition PACK_MARKER : pystr :=
  [32066; 26997; 23560; 26696; 25171; 21253; 27284].

(** [extract_project_label] *)
Definition extract_project_label (env : Env) (prproj_path : pystr) : pystr :=
  let p := PurePath.of_str (os_flavour env) prproj_path in
  if (2 <=? PurePath.len_parents p)%nat
     && Py.contains PACK_MARKER (PurePath.name (PurePath.parent p))
  then PurePath.name (PurePath.parent (PurePath.parent p))
  else if (1 <=? PurePath.len_parents p)%nat
  then PurePath.name (PurePath.parent p)
  else PurePath.stem p.

(** ** Predicates on the elements of a tree *)

(** Some element with text has a tag that is not a string. *)
Definition tag_without_string (elems : list Element) : Prop :=
  ∃ text children, Elem TagFunc (Some text) children ∈ elems ∧ text ≠ [].

(** [name] is the normalised text, with a dot in it, of an element whose
    tag holds [path] in some letter case. *)
Definition referenced (elems : list Element) (name : pystr) : Prop :=
  ∃ tag text children,
    Elem (TagStr tag) (Some text) children ∈ elems ∧ text ≠ []
    ∧ Py.contains (Py.lit "path") (Py.lower tag) = true
    ∧ name = _clean_to_filename text
    ∧ Py.has_char 46 name = true.

(** ** A sample environment

    One concrete file system and one table of library results, used to
    run the program on explicit inputs.  The library results are the ones
    the real libraries give on these inputs. *)

Module Sample.

(** A well-formed project document, with Windows and POSIX styled
    references to one clip. *)
Definition project_xml : pystr :=
  Py.lit "<Project><FilePath>C:\Media\clip01.mp4</FilePath><ActualMediaFilePath>/media/clip01.mp4</ActualMediaFilePath><Path>b.mov</Path><Title>intro.txt</Title><Path>a_proxy.mp4</Path></Project>".

Definition project_tree : Element :=
  Elem (TagStr (Py.lit "Project")) None
    [Elem (TagStr (Py.lit "FilePath")) (Some (Py.lit "C:\Media\clip01.mp4")) [];
     Elem (TagStr (Py.lit "ActualMediaFilePath"))
          (Some (Py.lit "/media/clip01.mp4")) [];
     Elem (TagStr (Py.lit "Path")) (Some (Py.lit "b.mov")) [];
     Elem (TagStr (Py.lit "Title")) (Some (Py.lit "intro.txt")) [];
     Elem (TagStr (Py.lit "Path")) (Some (Py.lit "a_proxy.mp4")) []].

(** A document with one unterminated tag, [<Bin>], next to a well-formed
    reference: the strict parser rejects it, the recovering parser closes
    the open element. *)
Definition broken_xml : pystr :=
  Py.lit "<Project><Path>a.mp4</Path><Bin></Project>".

Definition recovered_tree : Element :=
  Elem (TagStr (Py.lit "Project")) None
    [Elem (TagStr (Py.lit "Path")) (Some (Py.lit "a.mp4")) [];
     Elem (TagStr (Py.lit "Bin")) None []].

(** A gzip member (magic number first; the rest of the stream is left
    to the oracle) whose decompressed bytes hold the invalid octet 255. *)
Definition packed_gz : pybytes := [31; 139; 8; 0].
Definition packed_payload : pybytes :=
  Py.lit "<P><Path>" ++ [255] ++ Py.lit "a.mp4</Path></P>".

Definition packed_tree : Element :=
  Elem (TagStr (Py.lit "P")) None
    [Elem (TagStr (Py.lit "Path")) (Some (Py.lit "a.mp4")) []].

(** The media folder: two clips, a proxy, a sub-directory, a link to a
    regular file, a link to a directory and a dangling link. *)
Definition media : node :=
  Directory
    [(Py.lit "clip01.mp4", RegularFile []);
     (Py.lit "c.mov", RegularFile []);
     (Py.lit "a_proxy.mp4", RegularFile []);
     (Py.lit "audio",
      Directory [(Py.lit "take.wav", RegularFile []);
                 (Py.lit "cache.pek", RegularFile [])]);
     (Py.lit "linked.mp4", Symlink ToRegularFile);
     (Py.lit "archive", Symlink ToDirectory);
     (Py.lit "gone.mp4", Symlink Dangling)].

Definition stat (path : pystr) : option node :=
  if Py.eqb path (Py.lit "/work/final.prproj") then
    Some (RegularFile project_xml)
  else if Py.eqb path (Py.lit "/work/broken.prproj") then
    Some (RegularFile broken_xml)
  else if Py.eqb path (Py.lit "/work/comp.aepx") then
    Some (RegularFile project_xml)
  else if Py.eqb path (Py.lit "/work/packed.prproj") then
    Some (RegularFile packed_gz)
  else if Py.eqb path (Py.lit "/work/raw.prproj") then
    Some (RegularFile packed_payload)
  else if Py.eqb path (Py.lit "/work/notes.txt") then
    Some (RegularFile (Py.lit "clip01.mp4"))
  else if Py.eqb path (Py.lit "/work/media") then Some media
  else None.

Definition strict (content : pystr) : option Element :=
  if Py.eqb content project_xml then Some project_tree
  else if Py.eqb content (Py.lit "<P><Path>a.mp4</Path></P>")
  then Some packed_tree
  else None.

Definition recovering (bytes : pybytes) : option Element :=
  if Py.eqb bytes project_xml then Some project_tree
  else if Py.eqb bytes broken_xml then Some recovered_tree
  else if Py.eqb bytes (Py.lit "<P><Path>a.mp4</Path></P>")
  then Some packed_tree
  else None.

Definition gunzip (data : pybytes) : option pybytes :=
  if Py.eqb data packed_gz then Some packed_payload else None.

Definition env : Env :=
  {| os_flavour := Pathlib.Posix;
     os_stat := stat;
     gzip_decompress := gunzip;
     ET_fromstring := strict;
     ET_parse_bytes := strict;
     lxml := Some recovering |}.

(** The same machine without lxml installed. *)
Definition env_without_lxml : Env :=
  {| os_flavour := Pathlib.Posix;
     os_stat := stat;
     gzip_decompress := gunzip;
     ET_fromstring := strict;
     ET_parse_bytes := strict;
     lxml := None |}.

(** A document with a comment.  ElementTree's parser drops the comment;
    lxml keeps it as a node whose tag is the function [etree.Comment]
    and whose text is the text of the comment. *)
Definition commented_xml : pystr :=
  Py.lit "<Project><!-- exported --><Path>a.mp4</Path></Project>".

Definition commented_strict_tree : Element :=
  Elem (TagStr (Py.lit "Project")) None
    [Elem (TagStr (Py.lit "Path")) (Some (Py.lit "a.mp4")) []].

Definition commented_tree : Element :=
  Elem (TagStr (Py.lit "Project")) None
    [Elem TagFunc (Some (Py.lit " exported ")) [];
     Elem (TagStr (Py.lit "Path")) (Some (Py.lit "a.mp4")) []].

(** The same machine with that document stored as
    [/work/commented.prproj]. *)
Definition env_commented : Env :=
  {| os_flavour := Pathlib.Posix;
     os_stat := λ path,
       if Py.eqb path (Py.lit "/work/commented.prproj")
       then Some (RegularFile commented_xml)
       else stat path;
     gzip_decompress := gunzip;
     ET_fromstring := λ content,
       if Py.eqb content commented_xml then Some commented_strict_tree
       else strict content;
     ET_parse_bytes := strict;
     lxml := Some (λ bytes,
       if Py.eqb bytes commented_xml then Some commented_tree
       else recovering bytes) |}.

End Sample.

(** * Properties *)

(** ** The monad *)

Lemma bind_eq {A B} (m : io A) (k : A → io B) :
  m ≫= k =
  match m with
  | (t, Return a) => (t ++ (k a).1, (k a).2)
  | (t, Raise e) => (t, Raise e)
  end.
Proof.
  destruct m as [t [a|e]]; unfold mbind, io_bind; [|done].
  by destruct (k a).
Qed.

Lemma bind_inv_Return {A B} (m : io A) (k : A → io B) t b :
  m ≫= k = (t, Return b) →
  ∃ t1 a t2, m = (t1, Return a) ∧ k a = (t2, Return b) ∧ t = t1 ++ t2.
Proof.
  rewrite bind_eq. destruct m as [t1 [a|e]]; [|done].
  destruct (k a) as [t2 r] eqn:Hk; simpl. intros [= <- ->]. eauto 6.
Qed.

Lemma bind_Raise {A B} (m : io A) (k : A → io B) t e :
  m = (t, Raise e) → m ≫= k = (t, Raise e).
Proof. intros ->. by rewrite bind_eq. Qed.

Lemma bind_Return {A B} (m : io A) (k : A → io B) t a :
  m = (t, Return a) → m ≫= k = (t ++ (k a).1, (k a).2).
Proof. intros ->. by rewrite bind_eq. Qed.

(** ** Sorting a set of strings *)

Global Instance str_le_total : Total str_le.
Proof.
  intros s. unfold str_le. induction s as [|a s IH]; intros [|b t]; simpl; auto.
  destruct (N.ltb_spec a b), (N.ltb_spec b a), (N.eqb_spec a b),
    (N.eqb_spec b a); simpl; auto; lia.
Qed.

Global Instance str_le_trans : Transitive str_le.
Proof.
  intros s. unfold str_le.
  induction s as [|a s IH]; intros [|b t] [|c u]; simpl; auto; try done.
  destruct (N.ltb_spec a b), (N.ltb_spec b c), (N.ltb_spec a c),
    (N.eqb_spec a b), (N.eqb_spec b c), (N.eqb_spec a c);
    simpl; eauto; try lia; try done.
Qed.

Lemma sorted_Permutation (s : gset pystr) : sorted s ≡ₚ elements s.
Proof. apply merge_sort_Permutation. Qed.

Lemma elem_of_sorted (s : gset pystr) x : x ∈ sorted s ↔ x ∈ s.
Proof. by rewrite sorted_Permutation, elem_of_elements. Qed.

Lemma NoDup_sorted (s : gset pystr) : NoDup (sorted s).
Proof. rewrite sorted_Permutation. apply NoDup_elements. Qed.

Lemma Sorted_sorted (s : gset pystr) : Sorted str_le (sorted s).
Proof. apply (Sorted_merge_sort str_le). Qed.

Lemma list_to_set_sorted (s : gset pystr) : list_to_set (sorted s) = s.
Proof. apply set_eq. intros x. by rewrite elem_of_list_to_set, elem_of_sorted. Qed.

(** ** The reconciler *)

Lemma scan_folder_filenames_returns env folder_path :
  ∃ disk, scan_folder_filenames env folder_path
          = ([EvScan folder_path], Return disk).
Proof. unfold scan_folder_filenames. rewrite bind_eq. simpl. eauto. Qed.

(** What a successful reconciliation returns, in terms of the two sets it
    was computed from. *)
Lemma compare_filenames_inv env project_file folder_path t matched missing extra :
  compare_filenames env project_file folder_path
    = (t, Return (matched, missing, extra)) →
  ∃ t1 declared disk,
    parse_project_filenames env project_file = (t1, Return declared) ∧
    scan_folder_filenames env folder_path
      = ([EvScan folder_path], Return disk) ∧
    t = t1 ++ [EvScan folder_path] ∧
    matched = sorted (not_ignored declared ∩ not_ignored disk) ∧
    missing = sorted (not_ignored declared ∖ not_ignored disk) ∧
    extra = sorted (not_ignored disk ∖ not_ignored declared).
Proof.
  unfold compare_filenames. intros H.
  apply bind_inv_Return in H as (t1 & declared & t2 & Hp & H & ->).
  apply bind_inv_Return in H as (t3 & disk & t4 & Hs & H & ->).
  destruct (scan_folder_filenames_returns env folder_path) as [disk' Hs'].
  rewrite Hs' in Hs. injection Hs as <- <-.
  injection H as <- <- <- <-.
  exists t1, declared, disk'. by rewrite app_nil_r.
Qed.

(** C3: when reconciliation succeeds, [matched], [missing] and [extra] are
    pairwise disjoint, [matched] and [missing] together are exactly the
    declared set after ignore filtering, and [matched] and [extra]
    together are exactly the disk set after ignore filtering. *)
Theorem reconciliation_partitions
    env project_file folder_path t matched missing extra :
  compare_filenames env project_file folder_path
    = (t, Return (matched, missing, extra)) →
  ∃ t1 t2 declared disk,
    parse_project_filenames env project_file = (t1, Return declared) ∧
    scan_folder_filenames env folder_path = (t2, Return disk) ∧
    (∀ x, x ∈ matched → x ∉ missing) ∧
    (∀ x, x ∈ matched → x ∉ extra) ∧
    (∀ x, x ∈ missing → x ∉ extra) ∧
    list_to_set matched ∪ list_to_set missing = not_ignored declared ∧
    list_to_set matched ∪ list_to_set extra = not_ignored disk.
Proof.
  intros H.
  apply compare_filenames_inv in H
    as (t1 & declared & disk & Hp & Hs & -> & -> & -> & ->).
  exists t1, [EvScan folder_path], declared, disk.
  split; [done|]. split; [done|].
  rewrite !list_to_set_sorted.
  generalize (not_ignored declared) (not_ignored disk). intros D K.
  repeat split.
  - intros x. rewrite !elem_of_sorted, elem_of_intersection,
      elem_of_difference. tauto.
  - intros x. rewrite !elem_of_sorted, elem_of_intersection,
      elem_of_difference. tauto.
  - intros x. rewrite !elem_of_sorted, !elem_of_difference. tauto.
  - apply set_eq. intros x.
    rewrite elem_of_union, elem_of_intersection, elem_of_difference.
    destruct (decide (x ∈ K)); tauto.
  - apply set_eq. intros x.
    rewrite elem_of_union, elem_of_intersection, elem_of_difference.
    destruct (decide (x ∈ D)); tauto.
Qed.

(** C10: none of the three sequences returned by a successful
    reconciliation holds a filename twice. *)
Theorem reconciliation_sequences_NoDup
    env project_file folder_path t matched missing extra :
  compare_filenames env project_file folder_path
    = (t, Return (matched, missing, extra)) →
  NoDup matched ∧ NoDup missing ∧ NoDup extra.
Proof.
  intros H.
  apply compare_filenames_inv in H
    as (t1 & declared & disk & _ & _ & _ & -> & -> & ->).
  auto using NoDup_sorted.
Qed.

Lemma reconciliation_partitions_witness :
  compare_filenames Sample.env (Py.lit "/work/final.prproj")
      (Py.lit "/work/media")
    = ([EvOpen (Py.lit "/work/final.prproj"); EvStrictParse; EvLenientParse;
        EvScan (Py.lit "/work/media")],
       Return ([Py.lit "clip01.mp4"], [Py.lit "b.mov"],
               [Py.lit "c.mov"; Py.lit "linked.mp4"; Py.lit "take.wav"]))
  ∧ list_to_set [Py.lit "clip01.mp4"] ∪ list_to_set [Py.lit "b.mov"]
    = not_ignored
        ({[ Py.lit "clip01.mp4"; Py.lit "b.mov"; Py.lit "a_proxy.mp4" ]}
           : gset pystr).
Proof.
  split; [vm_compute; reflexivity|].
  destruct (reconciliation_partitions Sample.env
              (Py.lit "/work/final.prproj") (Py.lit "/work/media")
              [EvOpen (Py.lit "/work/final.prproj"); EvStrictParse;
               EvLenientParse; EvScan (Py.lit "/work/media")]
              [Py.lit "clip01.mp4"] [Py.lit "b.mov"]
              [Py.lit "c.mov"; Py.lit "linked.mp4"; Py.lit "take.wav"])
    as (t1 & t2 & declared & disk & Hp & _ & _ & _ & _ & Hu & _).
  - vm_compute; reflexivity.
  - rewrite Hu. f_equal.
    assert (Return declared
            = result (parse_project_filenames Sample.env
                        (Py.lit "/work/final.prproj"))) as Hd
      by (rewrite Hp; reflexivity).
    vm_compute in Hd. injection Hd as ->. vm_compute. reflexivity.
Defined.

Lemma reconciliation_sequences_NoDup_witness :
  NoDup [Py.lit "clip01.mp4"] ∧ NoDup [Py.lit "b.mov"]
  ∧ NoDup [Py.lit "c.mov"; Py.lit "linked.mp4"; Py.lit "take.wav"].
Proof.
  apply (reconciliation_sequences_NoDup Sample.env
           (Py.lit "/work/final.prproj") (Py.lit "/work/media")
           [EvOpen (Py.lit "/work/final.prproj"); EvStrictParse;
            EvLenientParse; EvScan (Py.lit "/work/media")]).
  vm_compute; reflexivity.
Defined.

(** ** Unsupported formats *)

Lemma is_prproj_false env project_path :
  Py.lower (Pathlib.suffix (os_flavour env) project_path) ≠ Py.lit ".prproj" →
  last_two (Pathlib.suffixes (os_flavour env) project_path)
    ≠ [Py.lit ".prproj"; Py.lit ".gz"] →
  is_prproj env project_path = false.
Proof.
  intros H1 H2. unfold is_prproj, Py.eqb.
  by rewrite !bool_decide_eq_false_2.
Qed.






(** ** Strings and suffixes *)

Lemma has_char_app c s t :
  Py.has_char c (s ++ t) = Py.has_char c s || Py.has_char c t.
Proof. apply existsb_app. Qed.

Lemma has_char_false c s : Py.has_char c s = false ↔ c ∉ s.
Proof.
  unfold Py.has_char. induction s as [|d s IH]; simpl.
  - split; [intros _; apply not_elem_of_nil | done].
  - rewrite not_elem_of_cons, orb_false_iff, IH, N.eqb_neq. done.
Qed.

Lemma split_nonempty c s : Py.split c s ≠ [].
Proof.
  destruct s as [|d s]; simpl; [done|].
  destruct (d =? c); [done|]. by destruct (Py.split c s).
Qed.

(** The last field of [split] holds no separator, and what precedes it
    in the string is split into the other fields. *)
Lemma split_decompose c s fs g :
  Py.split c s = fs ++ [g] →
  Py.has_char c g = false ∧
  ((fs = [] ∧ s = g) ∨ ∃ u, s = u ++ c :: g ∧ Py.split c u = fs).
Proof.
  revert fs g. induction s as [|d s IH]; intros fs g; simpl.
  - destruct fs as [|f [|??]]; intros [= <-]; auto.
  - destruct (N.eqb_spec d c) as [->|Hd].
    + destruct fs as [|f fs]; simpl.
      { intros [= _ H]. by destruct (split_nonempty c s). }
      intros [= <- H]. destruct (IH _ _ H) as [Hg [[-> ->]|(u & -> & Hu)]].
      * split; [done|]. right. by exists [].
      * split; [done|]. right. exists (c :: u). simpl.
        by rewrite N.eqb_refl, Hu.
    + destruct (Py.split c s) as [|f rest] eqn:Hs;
        [by destruct (split_nonempty c s)|].
      destruct fs as [|f1 fs]; simpl.
      * intros [= <- ->].
        destruct (IH [] f eq_refl) as [Hg [[_ ->]|(u & _ & Hu)]];
          [|by destruct (split_nonempty c u)].
        split; [|by left]. unfold Py.has_char in *. simpl.
        rewrite Hg. apply N.eqb_neq in Hd. by rewrite N.eqb_sym, Hd.
      * intros [= <- ->].
        destruct (IH (f :: fs) g eq_refl) as [Hg [[? _]|(u & -> & Hu)]];
          [done|].
        split; [done|]. right. exists (d :: u). simpl.
        apply N.eqb_neq in Hd. by rewrite Hd, Hu.
Qed.

Lemma rfind_aux_absent c s i last :
  Py.has_char c s = false → Py.rfind_aux c s i last = last.
Proof.
  revert i last. unfold Py.has_char.
  induction s as [|d s IH]; intros i last; simpl; [done|].
  rewrite orb_false_iff, N.eqb_sym. intros [-> H]. by apply IH.
Qed.

Lemma rfind_aux_app c u g i last :
  Py.has_char c g = false →
  Py.rfind_aux c (u ++ c :: g) i last = Some (i + length u)%nat.
Proof.
  intros Hg. revert i last. induction u as [|d u IH]; intros i last; simpl.
  - rewrite N.eqb_refl, rfind_aux_absent by done. f_equal. lia.
  - rewrite IH. f_equal. lia.
Qed.

Lemma rfind_app c u g :
  Py.has_char c g = false → Py.rfind c (u ++ c :: g) = Some (length u).
Proof. intros. unfold Py.rfind. by rewrite rfind_aux_app. Qed.

Lemma lstrip_by_decompose p s :
  ∃ pre, s = pre ++ Py.lstrip_by p s ∧ Forall (λ x, p x = true) pre.
Proof.
  induction s as [|c s (pre & IH & Hpre)]; simpl; [by exists []|].
  destruct (p c) eqn:Hc; [|by exists []].
  exists (c :: pre). split; [by rewrite <- app_comm_cons, <- IH | by constructor].
Qed.

Lemma endswith_snoc c u : Py.endswith [c] (u ++ [c]) = true.
Proof. unfold Py.endswith. rewrite rev_unit. simpl. by rewrite N.eqb_refl. Qed.

Lemma last_two_inv (l : list pystr) x y :
  last_two l = [x; y] → ∃ pre, l = pre ++ [x; y].
Proof.
  unfold last_two. intros H. exists (take (length l - 2) l).
  by rewrite <- H, take_drop.
Qed.

(** When a path has at least two suffixes, its extension is the last of
    them. *)
Lemma suffix_of_last_two f p x y :
  last_two (Pathlib.suffixes f p) = [x; y] → Pathlib.suffix f p = y.
Proof.
  unfold Pathlib.suffixes, Pathlib.suffix.
  generalize (Pathlib.name f p). intros n.
  destruct (Py.endswith [46] n) eqn:He; [done|].
  intros H. apply last_two_inv in H as [pre H].
  apply map_eq_app in H as (l1 & l2 & Ht & _ & H2).
  destruct l2 as [|fx [|fy [|??]]]; try done. injection H2 as <- <-.
  destruct (Py.split 46 (Py.lstrip_chars [46] n)) as [|f0 fields] eqn:Hs;
    [by destruct (split_nonempty 46 (Py.lstrip_chars [46] n))|].
  simpl in Ht. subst fields.
  destruct (split_decompose 46 (Py.lstrip_chars [46] n)
              (f0 :: l1 ++ [fx]) fy) as [Hg [[? _]|(u & Hn & Hu)]].
  { rewrite Hs. simpl. by rewrite <- app_assoc. }
  { done. }
  destruct (lstrip_by_decompose (Py.mem [46]) n) as (dots & Hd & _).
  fold (Py.lstrip_chars [46] n) in Hd. rewrite Hn in Hd.
  assert (n = (dots ++ u) ++ 46 :: fy) as -> by (by rewrite <- app_assoc).
  rewrite rfind_app by done.
  assert (u ≠ []) as Hu0.
  { intros ->. simpl in Hu. destruct l1; simplify_eq. }
  assert (fy ≠ []) as Hfy.
  { intros ->. by rewrite endswith_snoc in He. }
  assert (0 < length u)%nat by (destruct u; [done | simpl; lia]).
  assert (0 < length fy)%nat by (destruct fy; [done | simpl; lia]).
  rewrite !length_app. simpl.
  rewrite (proj2 (Nat.ltb_lt _ _)) by lia.
  rewrite (proj2 (Nat.ltb_lt _ _)) by lia.
  simpl. rewrite <- length_app. by rewrite drop_app_length.
Qed.

(** ** The decoders *)


Lemma utf_8_decode_unfold e ch s1 :
  Codec.utf_8_decode e (ch :: s1) =
  if ch <? 128 then Codec.emit ch (Codec.utf_8_decode e s1)
  else if ch <? 224 then
    if ch <? 194 then Codec.on_error e (Codec.utf_8_decode e s1)
    else match s1 with
         | [] => Codec.on_error e (Some [])
         | ch2 :: s2 =>
           if negb (Codec.is_continuation_byte ch2)
           then Codec.on_error e (Codec.utf_8_decode e s1)
           else Codec.emit (N.shiftl ch 6 + ch2 - 12416)
                           (Codec.utf_8_decode e s2)
         end
  else if ch <? 240 then
    match s1 with
    | [] => Codec.on_error e (Some [])
    | ch2 :: s2 =>
      if negb (Codec.is_continuation_byte ch2)
         || (if ch2 <? 160 then ch =? 224 else ch =? 237)
      then Codec.on_error e (Codec.utf_8_decode e s1)
      else match s2 with
           | [] => Codec.on_error e (Some [])
           | ch3 :: s3 =>
             if negb (Codec.is_continuation_byte ch3)
             then Codec.on_error e (Codec.utf_8_decode e s2)
             else Codec.emit (N.shiftl ch 12 + N.shiftl ch2 6 + ch3 - 925824)
                             (Codec.utf_8_decode e s3)
           end
    end
  else if ch <? 245 then
    match s1 with
    | [] => Codec.on_error e (Some [])
    | ch2 :: s2 =>
      if negb (Codec.is_continuation_byte ch2)
         || (if ch2 <? 144 then ch =? 240 else ch =? 244)
      then Codec.on_error e (Codec.utf_8_decode e s1)
      else match s2 with
           | [] => Codec.on_error e (Some [])
           | ch3 :: s3 =>
             if negb (Codec.is_continuation_byte ch3)
             then Codec.on_error e (Codec.utf_8_decode e s2)
             else match s3 with
                  | [] => Codec.on_error e (Some [])
                  | ch4 :: s4 =>
                    if negb (Codec.is_continuation_byte ch4)
                    then Codec.on_error e (Codec.utf_8_decode e s3)
                    else Codec.emit (N.shiftl ch 18 + N.shiftl ch2 12
                                     + N.shiftl ch3 6 + ch4 - 63447168)
                                    (Codec.utf_8_decode e s4)
                  end
           end
    end
  else Codec.on_error e (Codec.utf_8_decode e s1).
Proof. destruct s1 as [|? [|? [|? ?]]]; reflexivity. Qed.




(** ** Reading the project file *)

Lemma open_rb_regular env path data :
  os_stat env path = Some (RegularFile data) →
  open_rb env path = ([EvOpen path], Return data).
Proof. intros H. unfold open_rb. rewrite bind_eq. simpl. by rewrite H. Qed.






(** ** The order of the two parsers *)

Lemma lenient_parse_unbound env :
  try_except (lenient_parse env None)
             (content ← load_content None; ET_fromstring_io env content)
  = ([], Raise (UnboundLocalError (Py.lit "content"))).
Proof. unfold lenient_parse. by destruct (lxml env). Qed.

(** C1: in the compressed branch the first parse of the decoded text is
    the strict one, and it is not guarded: whenever the strict parser
    rejects the text, extraction raises [ParseError] right after that
    step, whatever the recovering parser would have made of the text. *)
Theorem strict_parse_precedes_lenient env project_path t content :
  is_prproj env project_path = true →
  read_content env project_path = (t, Return content) →
  (∃ rest, trace (parse_project_filenames env project_path)
           = t ++ EvStrictParse :: rest)
  ∧ (ET_fromstring env content = None →
     parse_project_filenames env project_path
     = (t ++ [EvStrictParse], Raise ParseError)).
Proof.
  intros Hb Hr. unfold parse_project_filenames. rewrite Hb.
  rewrite (bind_Return _ _ _ _ Hr). unfold ET_fromstring_io.
  destruct (ET_fromstring env content) as [root|]; simpl.
  - split; [|done]. rewrite !bind_eq. simpl.
    match goal with
    | |- context [try_except ?a ?b] => destruct (try_except a b) as [t1 [r|e]]
    end; simpl.
    + rewrite <- !app_assoc. simpl. eauto.
    + rewrite <- !app_assoc. simpl. eauto.
  - split; [|done]. by exists [].
Qed.

Lemma strict_parse_precedes_lenient_witness :
  ET_fromstring Sample.env Sample.broken_xml = None
  ∧ (Codec.utf_8_encode Sample.broken_xml ≫= Sample.recovering)
    = Some Sample.recovered_tree
  ∧ collect (iter Sample.recovered_tree) ∅ = ([], Return {[ Py.lit "a.mp4" ]})
  ∧ parse_project_filenames Sample.env (Py.lit "/work/broken.prproj")
    = ([EvOpen (Py.lit "/work/broken.prproj"); EvStrictParse],
       Raise ParseError).
Proof.
  split; [reflexivity|]. split; [vm_compute; reflexivity|].
  split; [vm_compute; reflexivity|].
  exact (proj2 (strict_parse_precedes_lenient Sample.env
                  (Py.lit "/work/broken.prproj")
                  [EvOpen (Py.lit "/work/broken.prproj")] Sample.broken_xml
                  eq_refl eq_refl) eq_refl).
Defined.

(** ** The plain-XML branch *)

Lemma aepx_is_not_prproj env project_path :
  Py.lower (Pathlib.suffix (os_flavour env) project_path) = Py.lit ".aepx" →
  is_prproj env project_path = false.
Proof.
  intros H. apply is_prproj_false.
  - rewrite H. discriminate.
  - intros H2. apply suffix_of_last_two in H2. rewrite H2 in H.
    vm_compute in H. discriminate.
Qed.

Lemma aepx_is_aepx env project_path :
  Py.lower (Pathlib.suffix (os_flavour env) project_path) = Py.lit ".aepx" →
  is_aepx env project_path = true.
Proof. intros H. unfold is_aepx, Py.eqb. by rewrite bool_decide_eq_true_2. Qed.

(** Whatever the file holds, the plain-XML branch ends in an exception. *)
Lemma aepx_branch_always_raises env project_path :
  Py.lower (Pathlib.suffix (os_flavour env) project_path) = Py.lit ".aepx" →
  ∃ e, result (parse_project_filenames env project_path) = Raise e.
Proof.
  intros H. unfold parse_project_filenames.
  rewrite (aepx_is_not_prproj _ _ H), (aepx_is_aepx _ _ H).
  rewrite !bind_eq.
  destruct (ET_parse env project_path) as [t [root|e]]; simpl; [|eauto].
  rewrite lenient_parse_unbound. simpl. eauto.
Qed.

(** C2: for a path whose extension is [.aepx], in any letter case, the
    file is read and parsed directly, with no decompression; but for a
    well-formed file the extraction then raises [UnboundLocalError] for
    the variable [content] instead of returning the filename set. *)
Theorem aepx_well_formed_raises_unbound_content env project_path data root :
  Py.lower (Pathlib.suffix (os_flavour env) project_path) = Py.lit ".aepx" →
  os_stat env project_path = Some (RegularFile data) →
  ET_parse_bytes env data = Some root →
  parse_project_filenames env project_path
  = ([EvOpen project_path; EvStrictParse],
     Raise (UnboundLocalError (Py.lit "content"))).
Proof.
  intros H Hs Hp. unfold parse_project_filenames.
  rewrite (aepx_is_not_prproj _ _ H), (aepx_is_aepx _ _ H).
  assert (ET_parse env project_path
          = ([EvOpen project_path; EvStrictParse], Return root)) as Hparse.
  { unfold ET_parse.
    rewrite (bind_Return _ _ _ _ (open_rb_regular _ _ _ Hs)).
    rewrite bind_eq. simpl. by rewrite Hp. }
  rewrite !bind_eq, Hparse. simpl.
  rewrite lenient_parse_unbound. reflexivity.
Qed.

Lemma aepx_well_formed_raises_unbound_content_witness :
  ET_parse_bytes Sample.env Sample.project_xml = Some Sample.project_tree
  ∧ parse_project_filenames Sample.env (Py.lit "/work/comp.aepx")
    = ([EvOpen (Py.lit "/work/comp.aepx"); EvStrictParse],
       Raise (UnboundLocalError (Py.lit "content"))).
Proof.
  split; [reflexivity|].
  exact (aepx_well_formed_raises_unbound_content Sample.env
           (Py.lit "/work/comp.aepx") Sample.project_xml Sample.project_tree
           eq_refl eq_refl eq_refl).
Defined.

(** ** Letter case in format detection *)

Lemma prproj_any_case env project_path :
  Py.lower (Pathlib.suffix (os_flavour env) project_path) = Py.lit ".prproj" →
  is_prproj env project_path = true.
Proof.
  intros H. unfold is_prproj, Py.eqb. by rewrite bool_decide_eq_true_2.
Qed.

(** C4: the extension alone is compared in lower case, so [clip.PRPROJ]
    takes the compressed branch, and so does the lower-case pair
    [clip.prproj.gz]; the pair of suffixes is compared as written, and
    [clip.PRPROJ.GZ] is rejected as an unsupported format, [.gz], before
    any file is opened. *)
Theorem uppercase_suffix_pair_is_rejected env :
  is_prproj env (Py.lit "clip.PRPROJ") = true
  ∧ is_prproj env (Py.lit "clip.prproj.gz") = true
  ∧ is_prproj env (Py.lit "clip.PRPROJ.GZ") = false
  ∧ parse_project_filenames env (Py.lit "clip.PRPROJ.GZ")
    = ([], Raise (ValueError (unsupported_format (Py.lit ".gz")))).
Proof.
  destruct env as [[] stat gz et etp lx]; vm_compute; done.
Qed.

(** ** Stripping *)

Lemma lstrip_by_all p pre t :
  Forall (λ x, p x = true) pre →
  Py.lstrip_by p (pre ++ t) = Py.lstrip_by p t.
Proof. induction 1 as [|c pre Hc _ IH]; simpl; [done|]. by rewrite Hc. Qed.

Lemma lstrip_by_head p s c r : Py.lstrip_by p s = c :: r → p c = false.
Proof.
  induction s as [|d s IH]; simpl; [done|].
  destruct (p d) eqn:Hd; [done|]. by intros [= <- _].
Qed.

Lemma lstrip_by_idem p s :
  Py.lstrip_by p (Py.lstrip_by p s) = Py.lstrip_by p s.
Proof.
  destruct (Py.lstrip_by p s) as [|c r] eqn:H; [done|].
  simpl. by rewrite (lstrip_by_head _ _ _ _ H).
Qed.

Lemma lstrip_by_length p s : (length (Py.lstrip_by p s) ≤ length s)%nat.
Proof.
  induction s as [|c s IH]; simpl; [done|]. destruct (p c); simpl; lia.
Qed.

(** A string is its stripped middle between two runs of strippable
    characters. *)
Lemma strip_by_decompose p s :
  ∃ pre mid post,
    s = pre ++ mid ++ post ∧
    Forall (λ x, p x = true) pre ∧ Forall (λ x, p x = true) post ∧
    Py.lstrip_by p mid = mid ∧ Py.lstrip_by p (rev mid) = rev mid ∧
    Py.strip_by p s = mid.
Proof.
  destruct (lstrip_by_decompose p s) as (pre & Hs & Hpre).
  destruct (lstrip_by_decompose p (rev (Py.lstrip_by p s)))
    as (post' & Ht & Hpost).
  set (t := Py.lstrip_by p s) in *.
  set (u := Py.lstrip_by p (rev t)) in *.
  assert (t = rev u ++ rev post') as Ht'.
  { by rewrite <- rev_app_distr, <- Ht, rev_involutive. }
  exists pre, (rev u), (rev post'). repeat split.
  - by rewrite <- Ht'.
  - done.
  - by apply Forall_rev.
  - destruct (rev u) as [|c r] eqn:Hu; [done|].
    assert (p c = false) as Hc.
    { apply (lstrip_by_head p t c (r ++ rev post')).
      unfold t at 1. rewrite lstrip_by_idem. fold t. by rewrite Ht'. }
    simpl. by rewrite Hc.
  - rewrite rev_involutive. apply lstrip_by_idem.
Qed.

Lemma strip_by_of_decomposition p pre mid post :
  Forall (λ x, p x = true) pre → Forall (λ x, p x = true) post →
  Py.lstrip_by p mid = mid → Py.lstrip_by p (rev mid) = rev mid →
  Py.strip_by p (pre ++ mid ++ post) = mid.
Proof.
  intros Hpre Hpost Hl Hr. unfold Py.strip_by, Py.rstrip_by.
  rewrite lstrip_by_all by done.
  destruct mid as [|c mid'].
  - simpl. rewrite <- (app_nil_r post), lstrip_by_all by done. done.
  - assert (p c = false) as Hc.
    { destruct (p c) eqn:Hc; [|done]. simpl in Hl. rewrite Hc in Hl.
      pose proof (lstrip_by_length p mid') as Hlen. rewrite Hl in Hlen.
      simpl in Hlen. lia. }
    change (Py.lstrip_by p ((c :: mid') ++ post))
      with (if p c then Py.lstrip_by p (mid' ++ post)
            else (c :: mid') ++ post).
    rewrite Hc, rev_app_distr, lstrip_by_all, Hr, rev_involutive; [done|].
    by apply Forall_rev.
Qed.

Lemma strip_by_fixed p s :
  Py.strip_by p s = s →
  Py.lstrip_by p s = s ∧ Py.lstrip_by p (rev s) = rev s.
Proof.
  intros H.
  destruct (strip_by_decompose p s)
    as (pre & mid & post & Hs & _ & _ & Hl & Hr & Hm).
  rewrite H in Hm. subst mid.
  apply (f_equal length) in Hs. rewrite !length_app in Hs. done.
Qed.

Lemma strip_by_unchanged p s :
  Py.lstrip_by p s = s → Py.lstrip_by p (rev s) = rev s →
  Py.strip_by p s = s.
Proof.
  intros Hl Hr.
  pose proof (strip_by_of_decomposition p [] s [] (Forall_nil_2 _)
                (Forall_nil_2 _) Hl Hr) as H.
  simpl in H. by rewrite app_nil_r in H.
Qed.

(** Extra strippable characters around a string do not change what is
    left of it. *)
Lemma strip_by_padded p pre s post :
  Forall (λ x, p x = true) pre → Forall (λ x, p x = true) post →
  Py.strip_by p (pre ++ s ++ post) = Py.strip_by p s.
Proof.
  intros Hpre Hpost.
  destruct (strip_by_decompose p s)
    as (pre' & mid & post' & -> & Hpre' & Hpost' & Hl & Hr & ->).
  replace (pre ++ (pre' ++ mid ++ post') ++ post)
    with ((pre ++ pre') ++ mid ++ (post' ++ post))
    by (by rewrite <- !app_assoc).
  apply strip_by_of_decomposition; auto using Forall_app_2.
Qed.
(** ** The path normaliser *)

Lemma Forall_mem_singleton q l :
  Forall (λ c, c = q) l → Forall (λ c, Py.mem [q] c = true) l.
Proof.
  induction 1 as [|c l -> _ IH]; constructor; [|exact IH].
  unfold Py.mem. simpl. by rewrite N.eqb_refl.
Qed.

(** C5: normalisation strips the surrounding white space, then every
    leading and trailing double quote, then every leading and trailing
    single quote, in that order and each once, before the filename is
    split off.  A raw string is read as white space, double quotes,
    single quotes, a core, single quotes, double quotes, white space, the
    runs on the two sides independent and of any length, each run as
    long as it can be; the result is what the rest of the function makes
    of the core.  So a name in any number of layers of double quotes, or
    of single quotes, loses them all; double quotes inside single quotes
    stay, and so does white space inside quotes. *)
Theorem clean_strips_every_quote_layer ws1 dq1 sq1 core sq2 dq2 ws2 :
  Forall (λ c, Py.isspace c = true) ws1 →
  Forall (λ c, Py.isspace c = true) ws2 →
  Forall (λ c, c = 34) dq1 → Forall (λ c, c = 34) dq2 →
  Forall (λ c, c = 39) sq1 → Forall (λ c, c = 39) sq2 →
  Py.strip (dq1 ++ sq1 ++ core ++ sq2 ++ dq2)
    = dq1 ++ sq1 ++ core ++ sq2 ++ dq2 →
  Py.strip_chars [34] (sq1 ++ core ++ sq2) = sq1 ++ core ++ sq2 →
  Py.strip_chars [39] core = core →
  _clean_to_filename (ws1 ++ dq1 ++ sq1 ++ core ++ sq2 ++ dq2 ++ ws2)
  = name_of_stripped core.
Proof.
  intros Hw1 Hw2 Hd1 Hd2 Hq1 Hq2 Hws Hdq Hsq.
  assert (Py.strip (ws1 ++ dq1 ++ sq1 ++ core ++ sq2 ++ dq2 ++ ws2)
          = dq1 ++ sq1 ++ core ++ sq2 ++ dq2) as E1.
  { etrans; [|exact Hws].
    replace (ws1 ++ dq1 ++ sq1 ++ core ++ sq2 ++ dq2 ++ ws2)
      with (ws1 ++ (dq1 ++ sq1 ++ core ++ sq2 ++ dq2) ++ ws2)
      by (by rewrite <- !app_assoc).
    by apply strip_by_padded. }
  assert (Py.strip_chars [34] (dq1 ++ sq1 ++ core ++ sq2 ++ dq2)
          = sq1 ++ core ++ sq2) as E2.
  { etrans; [|exact Hdq].
    replace (dq1 ++ sq1 ++ core ++ sq2 ++ dq2)
      with (dq1 ++ (sq1 ++ core ++ sq2) ++ dq2)
      by (by rewrite <- !app_assoc).
    apply strip_by_padded; by apply Forall_mem_singleton. }
  assert (Py.strip_chars [39] (sq1 ++ core ++ sq2) = core) as E3.
  { etrans; [|exact Hsq].
    apply strip_by_padded; by apply Forall_mem_singleton. }
  unfold _clean_to_filename. rewrite E1, E2, E3. reflexivity.
Qed.

Lemma clean_strips_every_quote_layer_witness :
  (_clean_to_filename
     ([32; 9] ++ [34; 34] ++ [39] ++ Py.lit "a.mp4" ++ [39] ++ [34; 34]
      ++ [32; 10])
   = name_of_stripped (Py.lit "a.mp4")
   ∧ name_of_stripped (Py.lit "a.mp4") = Py.lit "a.mp4")
  ∧ (_clean_to_filename
       ([] ++ [] ++ [39] ++ (34 :: Py.lit "a.mp4" ++ [34]) ++ [39] ++ []
        ++ [])
     = name_of_stripped (34 :: Py.lit "a.mp4" ++ [34])
     ∧ name_of_stripped (34 :: Py.lit "a.mp4" ++ [34])
       = 34 :: Py.lit "a.mp4" ++ [34])
  ∧ (_clean_to_filename
       ([] ++ [34] ++ [] ++ (32 :: Py.lit "a.mp4" ++ [32]) ++ [] ++ [34]
        ++ [])
     = name_of_stripped (32 :: Py.lit "a.mp4" ++ [32])
     ∧ name_of_stripped (32 :: Py.lit "a.mp4" ++ [32])
       = 32 :: Py.lit "a.mp4" ++ [32]).
Proof.
  split; [|split]; (split; [|reflexivity]).
  - apply (clean_strips_every_quote_layer [32; 9] [34; 34] [39]
             (Py.lit "a.mp4") [39] [34; 34] [32; 10]);
      first [reflexivity | by repeat constructor].
  - apply (clean_strips_every_quote_layer [] [] [39]
             (34 :: Py.lit "a.mp4" ++ [34]) [39] [] []);
      first [reflexivity | by repeat constructor].
  - apply (clean_strips_every_quote_layer [] [34] []
             (32 :: Py.lit "a.mp4" ++ [32]) [] [34] []);
      first [reflexivity | by repeat constructor].
Defined.

(** The reading of C5 in the specification, one layer only, fails on a
    name inside two layers of double quotes: the program returns the bare
    name, one layer would leave the inner quotes. *)
Lemma two_quote_layers_are_both_removed :
  _clean_to_filename ([34; 34] ++ Py.lit "a.mp4" ++ [34; 34])
  = Py.lit "a.mp4"
  ∧ spec_clean_to_filename ([34; 34] ++ Py.lit "a.mp4" ++ [34; 34])
    = [34] ++ Py.lit "a.mp4" ++ [34]
  ∧ _clean_to_filename ([34; 34] ++ Py.lit "a.mp4" ++ [34; 34])
    ≠ spec_clean_to_filename ([34; 34] ++ Py.lit "a.mp4" ++ [34; 34]).
Proof. vm_compute. repeat split; done. Qed.

(** ** Names without separators *)

Lemma slice_singleton_elem_of a b s c : Py.slice a b s = [c] → c ∈ s.
Proof.
  unfold Py.slice. intros H.
  apply (subseteq_drop a s), (subseteq_take (b - a) (drop a s)).
  rewrite H. by apply list_elem_of_singleton.
Qed.

Lemma startswith_cons_elem_of c p s : Py.startswith (c :: p) s = true → c ∈ s.
Proof.
  destruct s as [|d s]; simpl; [done|].
  destruct (N.eqb_spec c d) as [->|]; [|done]. intros _. by left.
Qed.

Lemma replace_char_absent a b s :
  Py.has_char a s = false → Py.replace_char a b s = s.
Proof.
  unfold Py.has_char, Py.replace_char.
  induction s as [|c s IH]; simpl; [done|].
  rewrite orb_false_iff, N.eqb_sym. intros [-> H]. by rewrite IH.
Qed.

Lemma windows_splitroot_plain s :
  Py.has_char 92 s = false → Py.slice 1 2 s ≠ [58] →
  Pathlib.windows_splitroot s = ([], [], s).
Proof.
  intros H92 Hcolon. apply has_char_false in H92.
  assert (Py.slice 1 2 s ≠ [92]) as F1
    by (intros E; by apply slice_singleton_elem_of in E).
  assert (Py.slice 0 1 s ≠ [92]) as F2
    by (intros E; by apply slice_singleton_elem_of in E).
  unfold Pathlib.windows_splitroot, Py.eqb.
  rewrite (bool_decide_eq_false_2 _ F1). simpl.
  rewrite (bool_decide_eq_false_2 _ F1), (bool_decide_eq_false_2 _ Hcolon).
  cbn [andb]. cbv beta iota zeta.
  rewrite (bool_decide_eq_false_2 _ F2). reflexivity.
Qed.

Lemma posix_splitroot_plain s :
  Py.has_char 47 s = false → Pathlib.posix_splitroot s = ([], [], s).
Proof.
  intros H47. apply has_char_false in H47. unfold Pathlib.posix_splitroot.
  destruct (Py.startswith [47] s) eqn:E; [|done].
  by apply startswith_cons_elem_of in E.
Qed.

(** A string without separator, drive or lone dot is its own final
    component, in either flavour. *)
Lemma name_plain f s :
  Py.has_char 47 s = false → Py.has_char 92 s = false →
  Py.slice 1 2 s ≠ [58] → s ≠ [46] →
  Pathlib.name f s = s.
Proof.
  intros H47 H92 Hcolon Hdot.
  destruct s as [|c s']; [by destruct f|].
  assert (Pathlib.kept (c :: s') = true) as Hk.
  { unfold Pathlib.kept, Py.eqb. by rewrite bool_decide_eq_false_2. }
  unfold Pathlib.name, Pathlib.parse_parts.
  change (Pathlib.nonempty (c :: s')) with true. cbv iota.
  destruct f; unfold Pathlib.splitroot, Pathlib.sep.
  - rewrite (replace_char_absent _ _ _ H47),
      (windows_splitroot_plain _ H92 Hcolon), H92, Hk. reflexivity.
  - rewrite (posix_splitroot_plain _ H47), H47, Hk. reflexivity.
Qed.

(** C8: a string with no path separator ([/] or [\]) is returned
    unchanged by the normaliser provided that stripping would not change
    it (no white space and no quote character at either end), that its
    second character is not a colon (no drive prefix), and that it is not
    the lone dot. *)
Theorem clean_is_identity_on_plain_names s :
  Py.has_char 47 s = false → Py.has_char 92 s = false →
  Py.strip s = s → Py.strip_chars [34] s = s → Py.strip_chars [39] s = s →
  Py.slice 1 2 s ≠ [58] → s ≠ [46] →
  _clean_to_filename s = s.
Proof.
  intros H47 H92 Hws Hdq Hsq Hcolon Hdot.
  unfold _clean_to_filename. rewrite Hws, Hdq, Hsq.
  destruct (Py.startswith [92; 92; 63; 92] s) eqn:E.
  { apply startswith_cons_elem_of in E. by apply has_char_false in H92. }
  rewrite !name_plain by done.
  unfold Py.eqb. rewrite bool_decide_eq_true_2 by done.
  by rewrite orb_true_r.
Qed.

Lemma clean_is_identity_on_plain_names_witness :
  _clean_to_filename (Py.lit "clip01.mp4") = Py.lit "clip01.mp4".
Proof.
  apply clean_is_identity_on_plain_names;
    solve [reflexivity | vm_compute; discriminate].
Defined.

(** The claim C8 as stated fails on names that hold no separator: a
    leading apostrophe or a space at an end is stripped, a drive-like
    prefix is dropped, and the lone dot becomes the empty string. *)
Lemma separator_free_names_are_changed :
  (Py.has_char 47 ([39] ++ Py.lit "70s.mp4") = false
   ∧ Py.has_char 92 ([39] ++ Py.lit "70s.mp4") = false
   ∧ _clean_to_filename ([39] ++ Py.lit "70s.mp4") = Py.lit "70s.mp4"
   ∧ _clean_to_filename ([39] ++ Py.lit "70s.mp4")
     ≠ [39] ++ Py.lit "70s.mp4")
  ∧ _clean_to_filename (Py.lit "clip.mp4 ") = Py.lit "clip.mp4"
  ∧ _clean_to_filename (Py.lit "C:clip.mp4") = Py.lit "clip.mp4"
  ∧ _clean_to_filename (Py.lit ".") = [].
Proof. vm_compute. repeat split; done. Qed.

(** ** The folder scanner *)

(** Induction on a file tree, with the hypothesis for every entry of a
    directory. *)
Lemma node_entries_ind (P : node → Prop) :
  (∀ data, P (RegularFile data)) →
  (∀ entries, Forall (λ e, P e.2) entries → P (Directory entries)) →
  (∀ target, P (Symlink target)) →
  P Special →
  ∀ f, P f.
Proof.
  intros Hfile Hdir Hlink Hspecial. fix IH 1.
  intros [data|entries|target|].
  - apply Hfile.
  - apply Hdir. induction entries as [|[name child] entries IHentries].
    + constructor.
    + constructor; [apply IH | apply IHentries].
  - apply Hlink.
  - apply Hspecial.
Qed.

Lemma rglob_Directory entries :
  rglob (Directory entries)
  = entries ++ flat_map (λ e, rglob e.2) entries.
Proof.
  simpl. f_equal. apply flat_map_ext. by intros [??].
Qed.

(** [rglob] lists exactly the entries beneath the folder. *)
Lemma elem_of_rglob folder name f :
  (name, f) ∈ rglob folder ↔ beneath folder name f.
Proof.
  split.
  - revert name f. induction folder as [data|entries IH|target|]
      using node_entries_ind; intros name f; try (by intros ?%elem_of_nil).
    rewrite rglob_Directory, elem_of_app. intros [H|H].
    + by apply beneath_entry.
    + apply list_elem_of_In, in_flat_map in H as ([dname sub] & Hin & H).
      apply list_elem_of_In in Hin, H.
      apply (beneath_deeper _ dname sub); [done|].
      rewrite Forall_forall in IH. by apply (IH (dname, sub)).
  - induction 1 as [entries name f H|entries dname sub name f H _ IH];
      rewrite rglob_Directory, elem_of_app.
    + by left.
    + right. apply list_elem_of_In, in_flat_map. exists (dname, sub).
      split; by apply list_elem_of_In.
Qed.

(** C6: the folder scan returns the names of the entries beneath the
    folder that are regular files or symbolic links resolving to a
    regular file; directories, links to directories, dangling links and
    special files contribute no name, and the scan performs the one
    folder listing and never raises. *)
Theorem scan_returns_files_and_links_to_files env folder_path folder :
  os_stat env folder_path = Some folder →
  ∃ names,
    scan_folder_filenames env folder_path
    = ([EvScan folder_path], Return names) ∧
    ∀ name,
      name ∈ names ↔
      ∃ f, beneath folder name f
           ∧ ((∃ data, f = RegularFile data) ∨ f = Symlink ToRegularFile).
Proof.
  intros Hs. unfold scan_folder_filenames. rewrite bind_eq. simpl.
  eexists. split; [reflexivity|]. intros name.
  unfold rglob_path. rewrite Hs, elem_of_list_to_set, list_elem_of_In, in_map_iff.
  split.
  - intros ([name' f] & <- & H). apply filter_In in H as [H Hf].
    apply list_elem_of_In, elem_of_rglob in H. exists f. split; [done|].
    destruct f as [data| |[]|]; simpl in Hf; try done; eauto.
  - intros (f & H & Hf). exists (name, f). split; [done|].
    apply filter_In. split.
    + by apply list_elem_of_In, elem_of_rglob.
    + by destruct Hf as [[data ->]| ->].
Qed.

Lemma scan_returns_files_and_links_to_files_witness :
  ∃ names,
    scan_folder_filenames Sample.env (Py.lit "/work/media")
    = ([EvScan (Py.lit "/work/media")], Return names) ∧
    ∀ name,
      name ∈ names ↔
      ∃ f, beneath Sample.media name f
           ∧ ((∃ data, f = RegularFile data) ∨ f = Symlink ToRegularFile).
Proof.
  exact (scan_returns_files_and_links_to_files Sample.env
           (Py.lit "/work/media") Sample.media eq_refl).
Defined.

(** The claim C6 as stated fails: the sample folder holds the symbolic
    link [linked.mp4], which resolves to a regular file, and the scan
    returns its name. *)
Lemma symlink_to_file_is_scanned :
  beneath Sample.media (Py.lit "linked.mp4") (Symlink ToRegularFile)
  ∧ scan_folder_filenames Sample.env (Py.lit "/work/media")
    = ([EvScan (Py.lit "/work/media")],
       Return {[ Py.lit "clip01.mp4"; Py.lit "c.mov"; Py.lit "a_proxy.mp4";
                 Py.lit "take.wav"; Py.lit "cache.pek";
                 Py.lit "linked.mp4" ]})
  ∧ Py.lit "linked.mp4"
    ∈ ({[ Py.lit "clip01.mp4"; Py.lit "c.mov"; Py.lit "a_proxy.mp4";
          Py.lit "take.wav"; Py.lit "cache.pek";
          Py.lit "linked.mp4" ]} : gset pystr).
Proof.
  split; [|split].
  - apply beneath_entry. unfold Sample.media.
    rewrite list_elem_of_In. simpl. tauto.
  - vm_compute. reflexivity.
  - rewrite !elem_of_union, !elem_of_singleton. tauto.
Qed.

(** * Further properties of the program *)

(** ** Prefixes, suffixes and substrings *)

Lemma startswith_spec p s : Py.startswith p s = true ↔ ∃ b, s = p ++ b.
Proof.
  revert s. induction p as [|a p IH]; intros s; simpl.
  - split; [intros _; by exists s | done].
  - destruct s as [|c s]; [split; [done | by intros [b ?]]|].
    rewrite andb_true_iff, N.eqb_eq, IH. split.
    + intros [-> [b ->]]. by exists b.
    + intros [b [= -> ->]]. eauto.
Qed.

Lemma endswith_spec p s : Py.endswith p s = true ↔ ∃ a, s = a ++ p.
Proof.
  unfold Py.endswith. rewrite startswith_spec. split.
  - intros [b H]. exists (rev b).
    by rewrite <- (rev_involutive s), H, rev_app_distr, rev_involutive.
  - intros [a ->]. exists (rev a). by rewrite rev_app_distr.
Qed.

Lemma contains_spec p s : Py.contains p s = true ↔ ∃ a b, s = a ++ p ++ b.
Proof.
  induction s as [|c s IH]; simpl.
  - rewrite orb_false_r, startswith_spec. split.
    + intros [b ->]. by exists [], b.
    + intros (a & b & H). symmetry in H.
      apply app_eq_nil in H as [-> H]. by exists b.
  - rewrite orb_true_iff, startswith_spec, IH. split.
    + intros [[b ->]|(a & b & ->)]; [by exists [], b | by exists (c :: a), b].
    + intros ([|c' a] & b & H).
      * left. by exists b.
      * injection H as <- ->. right. by exists a, b.
Qed.

Lemma contains_trans p q s :
  Py.contains p q = true → Py.contains q s = true → Py.contains p s = true.
Proof.
  rewrite !contains_spec. intros (a & b & ->) (a' & b' & ->).
  exists (a' ++ a), (b ++ b'). by rewrite <- !app_assoc.
Qed.

Lemma lower_app s t : Py.lower (s ++ t) = Py.lower s ++ Py.lower t.
Proof. unfold Py.lower. by rewrite map_app, concat_app. Qed.

(** ** The ignore filter *)

(** A name is ignored whenever it ends with one of the three extensions
    written in any letter case, and whenever one of the two markers,
    written in any letter case, occurs anywhere in it. *)
Theorem is_ignored_any_case_any_position a x b :
  (Py.lower x ∈ IGNORE_EXTENSIONS → is_ignored (a ++ x) = true)
  ∧ (Py.lower x ∈ IGNORE_SUBSTRINGS → is_ignored (a ++ x ++ b) = true).
Proof.
  split; intros Hx; unfold is_ignored.
  - assert (existsb (λ ext, Py.endswith ext (Py.lower (a ++ x)))
              IGNORE_EXTENSIONS = true) as ->; [|done].
    apply existsb_exists. exists (Py.lower x).
    split; [by apply list_elem_of_In|].
    apply endswith_spec. exists (Py.lower a). apply lower_app.
  - assert (existsb (λ sub, Py.contains sub (Py.lower (a ++ x ++ b)))
              IGNORE_SUBSTRINGS = true) as ->; [|by case_match].
    apply existsb_exists. exists (Py.lower x).
    split; [by apply list_elem_of_In|].
    apply contains_spec. exists (Py.lower a), (Py.lower b).
    by rewrite !lower_app.
Qed.

Lemma is_ignored_any_case_any_position_witness :
  is_ignored (Py.lit "Interview" ++ Py.lit ".PEK") = true
  ∧ is_ignored (Py.lit "b-roll" ++ Py.lit "_Proxy" ++ Py.lit ".mp4") = true.
Proof.
  split.
  - apply (proj1 (is_ignored_any_case_any_position
                    (Py.lit "Interview") (Py.lit ".PEK") [])).
    rewrite list_elem_of_In. vm_compute. left. reflexivity.
  - apply (proj2 (is_ignored_any_case_any_position
                    (Py.lit "b-roll") (Py.lit "_Proxy") (Py.lit ".mp4"))).
    rewrite list_elem_of_In. vm_compute. left. reflexivity.
Defined.

Lemma elem_of_not_ignored (files : gset pystr) x :
  x ∈ not_ignored files ↔ is_ignored x = false ∧ x ∈ files.
Proof. unfold not_ignored. by rewrite elem_of_filter. Qed.

(** No ignored filename is ever reported: none of the three sequences of
    a successful reconciliation holds a name the ignore filter accepts. *)
Theorem reconciliation_reports_no_ignored_file
    env project_file folder_path t matched missing extra x :
  compare_filenames env project_file folder_path
    = (t, Return (matched, missing, extra)) →
  x ∈ matched ∨ x ∈ missing ∨ x ∈ extra →
  is_ignored x = false.
Proof.
  intros H Hx.
  apply compare_filenames_inv in H
    as (t1 & declared & disk & _ & _ & _ & -> & -> & ->).
  rewrite !elem_of_sorted, elem_of_intersection, !elem_of_difference,
    !elem_of_not_ignored in Hx.
  tauto.
Qed.

Lemma reconciliation_reports_no_ignored_file_witness :
  is_ignored (Py.lit "take.wav") = false.
Proof.
  apply (reconciliation_reports_no_ignored_file Sample.env
           (Py.lit "/work/final.prproj") (Py.lit "/work/media")
           [EvOpen (Py.lit "/work/final.prproj"); EvStrictParse;
            EvLenientParse; EvScan (Py.lit "/work/media")]
           [Py.lit "clip01.mp4"] [Py.lit "b.mov"]
           [Py.lit "c.mov"; Py.lit "linked.mp4"; Py.lit "take.wav"]).
  - vm_compute; reflexivity.
  - right. right. rewrite list_elem_of_In. simpl. tauto.
Defined.

(** Each sequence of a successful reconciliation is in ascending
    code-point order: every element is below all the elements after
    it. *)
Theorem reconciliation_sequences_ascending
    env project_file folder_path t matched missing extra :
  compare_filenames env project_file folder_path
    = (t, Return (matched, missing, extra)) →
  StronglySorted str_le matched ∧ StronglySorted str_le missing
  ∧ StronglySorted str_le extra.
Proof.
  intros H.
  apply compare_filenames_inv in H
    as (t1 & declared & disk & _ & _ & _ & -> & -> & ->).
  unfold sorted. repeat split; apply (StronglySorted_merge_sort str_le).
Qed.

Lemma reconciliation_sequences_ascending_witness :
  StronglySorted str_le [Py.lit "clip01.mp4"]
  ∧ StronglySorted str_le [Py.lit "b.mov"]
  ∧ StronglySorted str_le
      [Py.lit "c.mov"; Py.lit "linked.mp4"; Py.lit "take.wav"].
Proof.
  apply (reconciliation_sequences_ascending Sample.env
           (Py.lit "/work/final.prproj") (Py.lit "/work/media")
           [EvOpen (Py.lit "/work/final.prproj"); EvStrictParse;
            EvLenientParse; EvScan (Py.lit "/work/media")]).
  vm_compute; reflexivity.
Defined.

(** ** Traces *)

Lemma trace_bind {A B} (m : io A) (k : A → io B) :
  trace (m ≫= k)
  = trace m ++ match result m with
               | Return a => trace (k a)
               | Raise _ => []
               end.
Proof.
  rewrite bind_eq. destruct m as [t [a|e]]; simpl; [done|].
  by rewrite app_nil_r.
Qed.

Lemma Forall_trace_bind {A B} (P : event → Prop) (m : io A) (k : A → io B) :
  Forall P (trace m) → (∀ a, Forall P (trace (k a))) →
  Forall P (trace (m ≫= k)).
Proof.
  intros Hm Hk. rewrite trace_bind. apply Forall_app_2; [done|].
  destruct (result m); [apply Hk | constructor].
Qed.

Lemma Forall_trace_try_except {A} (P : event → Prop) (body handler : io A) :
  Forall P (trace body) → Forall P (trace handler) →
  Forall P (trace (try_except body handler)).
Proof.
  destruct body as [t [a|e]], handler as [t' r]; simpl; [done|].
  apply Forall_app_2.
Qed.

Lemma Forall_trace_or_raise {A} (P : event → Prop) e (o : option A) :
  Forall P (trace (or_raise e o)).
Proof. destruct o; constructor. Qed.

Lemma visit_trace elem filenames : trace (visit elem filenames) = [].
Proof.
  destruct elem as [tag text children]. simpl.
  destruct (truthy_text text); [|done].
  destruct tag; [|done]. by repeat case_match.
Qed.

Lemma collect_trace elems filenames : trace (collect elems filenames) = [].
Proof.
  revert filenames. induction elems as [|elem elems IH]; intros filenames;
    simpl; [done|].
  rewrite trace_bind, visit_trace. simpl. by destruct (result _).
Qed.

(** Extraction never lists a folder. *)
Lemma parse_project_filenames_no_scan env project_path folder :
  EvScan folder ∉ trace (parse_project_filenames env project_path).
Proof.
  assert (Forall (λ ev, ev ≠ EvScan folder)
            (trace (parse_project_filenames env project_path))) as H.
  { unfold parse_project_filenames.
    assert (∀ p, Forall (λ ev, ev ≠ EvScan folder) (trace (open_rb env p)))
      as Hopen.
    { intros p. unfold open_rb. apply Forall_trace_bind.
      - by repeat constructor.
      - intros _. repeat case_match; constructor. }
    assert (∀ c, Forall (λ ev, ev ≠ EvScan folder)
                   (trace (ET_fromstring_io env c))) as Hstrict.
    { intros c. unfold ET_fromstring_io. apply Forall_trace_bind.
      - by repeat constructor.
      - intros _. apply Forall_trace_or_raise. }
    apply Forall_trace_bind; [|intros content; apply Forall_trace_bind].
    - repeat case_match.
      + apply Forall_trace_bind; [|intros c; apply Forall_trace_bind;
          [apply Hstrict | intros _; constructor]].
        unfold read_content. apply Forall_trace_bind; [apply Hopen|].
        intros f. case_match.
        * unfold gzip_read_text.
          repeat (apply Forall_trace_bind;
                  [apply Forall_trace_or_raise | intros ?]).
          constructor.
        * apply Forall_trace_or_raise.
      + apply Forall_trace_bind; [|intros _; constructor].
        unfold ET_parse. apply Forall_trace_bind; [apply Hopen|].
        intros f. apply Forall_trace_bind; [by repeat constructor|].
        intros _. apply Forall_trace_or_raise.
      + constructor.
    - apply Forall_trace_try_except.
      + unfold lenient_parse, load_content.
        repeat (apply Forall_trace_bind;
                [apply Forall_trace_or_raise | intros ?]).
        apply Forall_trace_bind; [by repeat constructor|].
        intros _. apply Forall_trace_or_raise.
      + unfold load_content.
        apply Forall_trace_bind; [apply Forall_trace_or_raise|].
        apply Hstrict.
    - intros root. rewrite collect_trace. constructor. }
  rewrite Forall_forall in H. intros Hin. by apply (H _ Hin).
Qed.

(** A failed extraction aborts the reconciliation with the same exception
    and the same events, and the folder is never listed; after a
    successful extraction the folder is listed once, as the last step. *)
Theorem reconciliation_scans_only_after_extraction
    env project_file folder_path :
  match parse_project_filenames env project_file with
  | (t, Raise e) =>
      compare_filenames env project_file folder_path = (t, Raise e)
      ∧ ∀ folder, EvScan folder ∉ t
  | (t, Return _) =>
      trace (compare_filenames env project_file folder_path)
      = t ++ [EvScan folder_path]
      ∧ ∀ folder, EvScan folder ∉ t
  end.
Proof.
  pose proof (parse_project_filenames_no_scan env project_file) as Hno.
  unfold compare_filenames.
  destruct (parse_project_filenames env project_file) as [t [declared|e]]
    eqn:Hp; simpl in Hno.
  - split; [|done]. rewrite !bind_eq. simpl. done.
  - split; [|done]. by apply bind_Raise.
Qed.

(** ** Final components *)

Lemma split_absent c g : Py.has_char c g = false → Py.split c g = [g].
Proof.
  unfold Py.has_char. induction g as [|d g IH]; simpl; [done|].
  rewrite orb_false_iff, N.eqb_sym. intros [-> H]. by rewrite IH.
Qed.

Lemma split_app_sep c u g :
  Py.has_char c g = false →
  Py.split c (u ++ c :: g) = Py.split c u ++ [g].
Proof.
  intros Hg. induction u as [|d u IH]; simpl.
  - by rewrite N.eqb_refl, split_absent.
  - rewrite IH. destruct (d =? c); [done|].
    destruct (Py.split c u) as [|f fs] eqn:Hs; [|done].
    by destruct (split_nonempty c u).
Qed.

Lemma kept_spec x : Pathlib.kept x = true ↔ x ≠ [] ∧ x ≠ [46].
Proof.
  unfold Pathlib.kept, Py.eqb.
  rewrite andb_true_iff, negb_true_iff, bool_decide_eq_false.
  destruct x; simpl; intuition congruence.
Qed.

Lemma last_kept_split c u g :
  Pathlib.kept g = true → Py.has_char c g = false →
  List.last (List.filter Pathlib.kept (Py.split c (u ++ c :: g))) [] = g.
Proof.
  intros Hk Hg. rewrite split_app_sep by done.
  rewrite List.filter_app. simpl. rewrite Hk. apply last_last.
Qed.

Lemma lstrip_sep_shape c u g :
  Py.has_char c g = false → g ≠ [] →
  Py.lstrip_chars [c] (u ++ c :: g) = g
  ∨ ∃ v, Py.lstrip_chars [c] (u ++ c :: g) = v ++ c :: g.
Proof.
  intros Hg Hne. unfold Py.lstrip_chars.
  induction u as [|d u IH]; simpl.
  - rewrite N.eqb_refl. simpl. left.
    destruct g as [|e g]; [done|]. simpl.
    unfold Py.has_char in Hg. simpl in Hg.
    apply orb_false_iff in Hg as [Hg _]. rewrite N.eqb_sym in Hg.
    by rewrite Hg.
  - destruct (d =? c); simpl; [done|]. right. by exists (d :: u).
Qed.

Lemma last_after_anchor (F : list pystr) n x :
  (if (length (F ++ [n]) =? 0)%nat then []
   else match F ++ [n] with
        | [] => x
        | _ :: _ => List.last (F ++ [n]) []
        end) = n.
Proof.
  rewrite length_app, Nat.add_comm. simpl.
  destruct (F ++ [n]) as [|y l] eqn:E.
  - by apply app_eq_nil in E as [_ ?].
  - rewrite <- E. apply last_last.
Qed.

(** The final component, read off the third result of [splitroot]. *)
Lemma name_from_splitroot f s drv root rel n :
  s ≠ [] →
  Pathlib.splitroot f
    (match f with
     | Pathlib.Windows => Py.replace_char 47 92 s
     | Pathlib.Posix => s
     end) = (drv, root, rel) →
  rel = n ∨ (∃ v, rel = v ++ Pathlib.sep f :: n) →
  Pathlib.kept n = true → Py.has_char (Pathlib.sep f) n = false →
  Pathlib.name f s = n.
Proof.
  intros Hs Hroot Hrel Hk Hn. unfold Pathlib.name, Pathlib.parse_parts.
  destruct s as [|c0 s0]; [done|].
  change (Pathlib.nonempty (c0 :: s0)) with true. cbv iota.
  rewrite Hroot.
  destruct (Pathlib.nonempty drv || Pathlib.nonempty root);
    destruct Hrel as [->|[v ->]].
  - rewrite Hn, Hk. reflexivity.
  - rewrite has_char_app. simpl. rewrite N.eqb_refl, orb_true_r.
    rewrite split_app_sep, List.filter_app by done. simpl. rewrite Hk.
    apply last_after_anchor.
  - rewrite Hn, Hk. reflexivity.
  - rewrite has_char_app. simpl. rewrite N.eqb_refl, orb_true_r.
    rewrite split_app_sep, List.filter_app by done. simpl. rewrite Hk.
    rewrite last_last, length_app, Nat.add_comm. reflexivity.
Qed.

Lemma eqb_singleton x y : Py.eqb [x] [y] = (x =? y).
Proof.
  unfold Py.eqb. destruct (N.eqb_spec x y) as [->|H].
  - by apply bool_decide_eq_true_2.
  - apply bool_decide_eq_false_2. by intros [= ?].
Qed.

Local Arguments Py.eqb : simpl never.
Local Arguments Py.lstrip_chars : simpl never.
Local Arguments Pathlib.in_drive_letters : simpl never.

(** [splitroot] on a part that does not start with two backslashes: only
    a drive letter and one run of leading backslashes are split off. *)
Lemma windows_splitroot_simple part :
  Py.eqb (Py.slice 1 2 part) [92] && Py.eqb (Py.slice 0 1 part) [92] = false →
  Pathlib.windows_splitroot part =
  (let '(drv, part0, first) :=
     if Py.eqb (Py.slice 1 2 part) [58]
        && Pathlib.in_drive_letters (Py.slice 0 1 part)
     then (take 2 part, drop 2 part, Py.slice 2 3 part)
     else ([], part, Py.slice 0 1 part) in
   let '(root, part1) :=
     if Py.eqb first [92] then (first, Py.lstrip_chars [92] part0)
     else ([], part0) in
   (drv, root, part1)).
Proof.
  intros H. unfold Pathlib.windows_splitroot. rewrite H.
  cbv beta iota zeta. rewrite H. cbn [andb].
  by repeat case_match.
Qed.

Lemma no_double_start part :
  Py.startswith [92; 92] part = false →
  Py.eqb (Py.slice 1 2 part) [92] && Py.eqb (Py.slice 0 1 part) [92] = false.
Proof.
  destruct part as [|a [|b r]]; [done|..].
  - intros _. by rewrite andb_false_iff; left.
  - change (Py.slice 1 2 (a :: b :: r)) with [b].
    change (Py.slice 0 1 (a :: b :: r)) with [a].
    rewrite !eqb_singleton.
    destruct (N.eqb_spec a 92) as [->|], (N.eqb_spec b 92) as [->|];
      done.
Qed.

Lemma drive_shape u n :
  Py.eqb (Py.slice 1 2 (u ++ 92 :: n)) [58]
  && Pathlib.in_drive_letters (Py.slice 0 1 (u ++ 92 :: n)) = true →
  ∃ a u2, u = a :: 58 :: u2.
Proof.
  destruct u as [|a [|b u2]].
  - change (Py.slice 0 1 ([] ++ 92 :: n)) with [92].
    rewrite andb_true_iff. intros [_ H]. by vm_compute in H.
  - change (Py.slice 1 2 ([a] ++ 92 :: n)) with [92].
    rewrite andb_true_iff. intros [H _]. by vm_compute in H.
  - change (Py.slice 1 2 ((a :: b :: u2) ++ 92 :: n)) with [b].
    rewrite andb_true_iff, eqb_singleton, N.eqb_eq. intros [-> _]. eauto.
Qed.

(** On a path that does not start with two separators, the rest that
    [splitroot] leaves still ends with the last separator and what
    follows it, or is what follows it. *)
Lemma windows_splitroot_rel u n :
  Py.startswith [92; 92] (u ++ 92 :: n) = false →
  Py.has_char 92 n = false → n ≠ [] →
  ∃ drv root rel,
    Pathlib.windows_splitroot (u ++ 92 :: n) = (drv, root, rel)
    ∧ (rel = n ∨ ∃ v, rel = v ++ 92 :: n).
Proof.
  intros Hstart Hn Hne.
  rewrite (windows_splitroot_simple _ (no_double_start _ Hstart)).
  destruct (Py.eqb (Py.slice 1 2 (u ++ 92 :: n)) [58]
            && Pathlib.in_drive_letters (Py.slice 0 1 (u ++ 92 :: n)))
    eqn:Hd.
  - apply drive_shape in Hd as (a & u2 & ->).
    change (drop 2 ((a :: 58 :: u2) ++ 92 :: n)) with (u2 ++ 92 :: n).
    destruct (Py.eqb (Py.slice 2 3 ((a :: 58 :: u2) ++ 92 :: n)) [92]).
    + destruct (lstrip_sep_shape 92 u2 n Hn Hne) as [H|[v H]];
        eexists _, _, _; (split; [reflexivity|]); rewrite H; eauto.
    + eexists _, _, _. split; [reflexivity|]. eauto.
  - destruct (Py.eqb (Py.slice 0 1 (u ++ 92 :: n)) [92]).
    + destruct (lstrip_sep_shape 92 u n Hn Hne) as [H|[v H]];
        eexists _, _, _; (split; [reflexivity|]); rewrite H; eauto.
    + eexists _, _, _. split; [reflexivity|]. eauto.
Qed.

Lemma replace_char_app a b s t :
  Py.replace_char a b (s ++ t) = Py.replace_char a b s ++ Py.replace_char a b t.
Proof. apply map_app. Qed.

Lemma startswith_two_replaced s :
  Py.startswith [92; 92] (Py.replace_char 47 92 s) = true →
  ∃ a b, a ∈ [47; 92] ∧ b ∈ [47; 92] ∧ Py.startswith [a; b] s = true.
Proof.
  destruct s as [|a [|b r]]; [done| |].
  - simpl. rewrite andb_true_iff. by intros [_ ?].
  - intros H. exists a, b.
    apply startswith_spec in H as [rest H]. simpl in H.
    injection H as Ha Hb _.
    assert (∀ x, (if x =? 47 then 92 else x) = 92 → x ∈ [47; 92]) as Hx.
    { intros x. destruct (N.eqb_spec x 47) as [->|_].
      - intros _. by left.
      - intros ->. right. by left. }
    repeat split; [by apply Hx | by apply Hx |].
    apply startswith_spec. by exists r.
Qed.

(** The dual-style reading of paths.  A string that is a directory part,
    one separator of either style and a name without separators is
    normalised to that name, with or without the extended-length prefix in
    front, provided the path does not start with two separators (no UNC
    share) and stripping would not change the string. *)
Theorem clean_returns_final_component (extended : bool) dir c n s raw :
  c = 47 ∨ c = 92 →
  Py.has_char 47 n = false → Py.has_char 92 n = false →
  n ≠ [] → n ≠ [46] →
  s = dir ++ c :: n →
  raw = (if extended then [92; 92; 63; 92] else []) ++ s →
  Py.strip raw = raw →
  Py.strip_chars [34] raw = raw → Py.strip_chars [39] raw = raw →
  (∀ a b, a ∈ [47; 92] → b ∈ [47; 92] → Py.startswith [a; b] s = false) →
  _clean_to_filename raw = n.
Proof.
  intros Hc H47 H92 Hne Hdot Hs Hraw Hws Hdq Hsq Hstart.
  assert (Pathlib.kept n = true) as Hk by (by apply kept_spec).
  assert ((if Py.startswith [92; 92; 63; 92] raw then drop 4 raw else raw) = s)
    as Htail.
  { destruct extended; subst raw.
    - assert (Py.startswith [92; 92; 63; 92] ([92; 92; 63; 92] ++ s) = true)
        as -> by (apply startswith_spec; by exists s).
      reflexivity.
    - change ([] ++ s) with s.
      destruct (Py.startswith [92; 92; 63; 92] s) eqn:E; [|done].
      apply startswith_spec in E as [rest E].
      assert (Py.startswith [92; 92] s = true) as E'.
      { apply startswith_spec. exists (63 :: 92 :: rest). by rewrite E. }
      rewrite Hstart in E'; [done| |]; right; by left. }
  assert (Pathlib.name Pathlib.Windows s = n) as Hname.
  { assert (Py.replace_char 47 92 s = Py.replace_char 47 92 dir ++ 92 :: n)
      as Hrep.
    { rewrite Hs, replace_char_app. f_equal. simpl.
      rewrite (replace_char_absent _ _ _ H47).
      by destruct Hc as [-> | ->]. }
    destruct (windows_splitroot_rel (Py.replace_char 47 92 dir) n)
      as (drv & root & rel & Hroot & Hrel); [|done..|].
    { rewrite <- Hrep.
      destruct (Py.startswith [92; 92] (Py.replace_char 47 92 s)) eqn:E;
        [|done].
      apply startswith_two_replaced in E as (a & b & Ha & Hb & E).
      by rewrite Hstart in E. }
    apply (name_from_splitroot Pathlib.Windows s drv root rel n); try done.
    - rewrite Hs. by destruct dir.
    - simpl. by rewrite Hrep. }
  unfold _clean_to_filename. rewrite Hws, Hdq, Hsq, Htail, Hname.
  assert (Py.eqb n s = false) as ->.
  { unfold Py.eqb. apply bool_decide_eq_false_2. intros E.
    apply (f_equal length) in E. rewrite Hs, length_app in E.
    simpl in E. lia. }
  by destruct n.
Qed.

Lemma clean_returns_final_component_witness :
  _clean_to_filename (Py.lit "C:\Media\clip01.mp4") = Py.lit "clip01.mp4"
  ∧ _clean_to_filename (Py.lit "/media/raw/clip01.mp4") = Py.lit "clip01.mp4"
  ∧ _clean_to_filename ([92; 92; 63; 92] ++ Py.lit "D:\Footage/day 1\b.mov")
    = Py.lit "b.mov".
Proof.
  split; [|split].
  - apply (clean_returns_final_component false (Py.lit "C:\Media") 92
             (Py.lit "clip01.mp4") (Py.lit "C:\Media\clip01.mp4"));
      try solve [reflexivity | by right | vm_compute; discriminate].
    intros a b Ha Hb. rewrite !elem_of_cons, !elem_of_nil in Ha, Hb.
    destruct Ha as [->|[->|[]]], Hb as [->|[->|[]]]; reflexivity.
  - apply (clean_returns_final_component false (Py.lit "/media/raw") 47
             (Py.lit "clip01.mp4") (Py.lit "/media/raw/clip01.mp4"));
      try solve [reflexivity | by left | vm_compute; discriminate].
    intros a b Ha Hb. rewrite !elem_of_cons, !elem_of_nil in Ha, Hb.
    destruct Ha as [->|[->|[]]], Hb as [->|[->|[]]]; reflexivity.
  - apply (clean_returns_final_component true (Py.lit "D:\Footage/day 1") 92
             (Py.lit "b.mov") (Py.lit "D:\Footage/day 1\b.mov"));
      try solve [reflexivity | by right | vm_compute; discriminate].
    intros a b Ha Hb. rewrite !elem_of_cons, !elem_of_nil in Ha, Hb.
    destruct Ha as [->|[->|[]]], Hb as [->|[->|[]]]; reflexivity.
Defined.

(** ** What a normalised name can hold *)

Lemma split_field_no_sep c s f : f ∈ Py.split c s → Py.has_char c f = false.
Proof.
  revert f. induction s as [|d s IH]; intros f; simpl.
  - rewrite list_elem_of_singleton. by intros ->.
  - destruct (N.eqb_spec d c) as [->|Hd].
    + rewrite elem_of_cons. intros [->|H]; [done | by apply IH].
    + destruct (Py.split c s) as [|f0 fs] eqn:Hs.
      * rewrite list_elem_of_singleton. intros ->.
        unfold Py.has_char. simpl. apply N.eqb_neq in Hd.
        by rewrite N.eqb_sym, Hd.
      * rewrite elem_of_cons. intros [->|H].
        -- unfold Py.has_char. simpl. apply N.eqb_neq in Hd.
           rewrite N.eqb_sym, Hd. simpl. apply IH. by left.
        -- apply IH. by right.
Qed.

Lemma split_field_subseteq c s f : f ∈ Py.split c s → f ⊆ s.
Proof.
  revert f. induction s as [|d s IH]; intros f; simpl.
  - rewrite list_elem_of_singleton. by intros ->.
  - destruct (d =? c).
    + rewrite elem_of_cons. intros [->|H].
      * apply list_subseteq_nil.
      * by apply list_subseteq_cons, IH.
    + destruct (Py.split c s) as [|f0 fs] eqn:Hs.
      * rewrite list_elem_of_singleton. intros ->.
        apply list_subseteq_skip, list_subseteq_nil.
      * rewrite elem_of_cons. intros [->|H].
        -- apply list_subseteq_skip, IH. by left.
        -- apply list_subseteq_cons, IH. by right.
Qed.

Lemma last_elem_of {A} (l : list A) d : l ≠ [] → List.last l d ∈ l.
Proof.
  intros Hl. destruct (exists_last Hl) as (init & x & ->).
  rewrite last_last, elem_of_app. right. by left.
Qed.

(** The final component is empty or one of the components that
    [parse_parts] kept from the rest after the root. *)
Lemma name_cases f s :
  Pathlib.name f s = []
  ∨ ∃ drv root rel part,
      Pathlib.splitroot f part = (drv, root, rel)
      ∧ part = (match f with
                | Pathlib.Windows => Py.replace_char 47 92 s
                | Pathlib.Posix => s
                end)
      ∧ Pathlib.kept (Pathlib.name f s) = true
      ∧ Py.has_char (Pathlib.sep f) (Pathlib.name f s) = false
      ∧ Pathlib.name f s ⊆ rel.
Proof.
  unfold Pathlib.name, Pathlib.parse_parts.
  destruct (Pathlib.nonempty s); [|by left].
  destruct (Pathlib.splitroot f _) as [[drv root] rel] eqn:Hroot.
  set (parsed := if Py.has_char (Pathlib.sep f) rel
                 then List.filter Pathlib.kept (Py.split (Pathlib.sep f) rel)
                 else if Pathlib.kept rel then [rel] else []).
  assert (∀ x, x ∈ parsed →
            Pathlib.kept x = true ∧ Py.has_char (Pathlib.sep f) x = false
            ∧ x ⊆ rel) as Hparsed.
  { intros x. unfold parsed.
    destruct (Py.has_char (Pathlib.sep f) rel) eqn:Hsep.
    - rewrite list_elem_of_In, filter_In, <- list_elem_of_In.
      intros [Hx Hk].
      eauto using split_field_no_sep, split_field_subseteq.
    - destruct (Pathlib.kept rel) eqn:Hk.
      + rewrite list_elem_of_singleton. by intros ->.
      + by intros ?%elem_of_nil. }
  destruct parsed as [|p0 ps] eqn:Epar.
  - left. rewrite app_nil_r.
    destruct (Pathlib.nonempty drv || Pathlib.nonempty root); reflexivity.
  - assert (List.last ((if Pathlib.nonempty drv || Pathlib.nonempty root
                        then [drv ++ root] else []) ++ p0 :: ps) []
            ∈ p0 :: ps) as Hlast.
    { destruct (exists_last (l:=p0 :: ps)) as (init & x & E); [done|].
      rewrite E, app_assoc, last_last, elem_of_app. right. by left. }
    destruct (Hparsed _ Hlast) as (Hk & Hs & Hsub).
    destruct (length _ =? _)%nat; [by left|].
    right. eexists drv, root, rel, _. by split; [exact Hroot|].
Qed.

Lemma lstrip_by_subseteq p s : Py.lstrip_by p s ⊆ s.
Proof.
  destruct (lstrip_by_decompose p s) as (pre & Hs & _).
  rewrite Hs at 2. intros x Hx. rewrite elem_of_app. by right.
Qed.

Lemma split_extended_subseteq s prefix part :
  Pathlib._split_extended_path s = (prefix, part) → part ⊆ 92 :: s.
Proof.
  unfold Pathlib._split_extended_path. intros H.
  repeat case_match; simplify_eq.
  - apply list_subseteq_skip. etrans; apply subseteq_drop.
  - apply list_subseteq_cons, subseteq_drop.
  - by apply list_subseteq_cons.
Qed.

(** What [splitroot] leaves after the root is made of characters of the
    part, the backslash apart. *)
Lemma windows_splitroot_rel_subseteq part0 drv root rel :
  Pathlib.windows_splitroot part0 = (drv, root, rel) → rel ⊆ 92 :: part0.
Proof.
  unfold Pathlib.windows_splitroot.
  destruct (if Py.eqb _ _ && Py.eqb _ _
            then Pathlib._split_extended_path part0 else ([], part0))
    as [prefix part] eqn:Hp.
  assert (part ⊆ 92 :: part0) as Hpart.
  { destruct (_ && _) in Hp.
    - by apply (split_extended_subseteq _ prefix).
    - injection Hp as _ <-. by apply list_subseteq_cons. }
  clear Hp. intros H. etrans; [|exact Hpart]. clear Hpart.
  repeat case_match; simplify_eq;
    try apply subseteq_drop; try done;
    unfold Py.lstrip_chars;
    try (etrans; [apply lstrip_by_subseteq|]);
    try apply subseteq_drop; done.
Qed.

Lemma replace_char_removes a b s :
  a ≠ b → Py.has_char a (Py.replace_char a b s) = false.
Proof.
  intros Hab. unfold Py.has_char, Py.replace_char.
  induction s as [|c s IH]; simpl; [done|]. rewrite IH, orb_false_r.
  destruct (N.eqb_spec c a) as [->|Hc]; apply N.eqb_neq; congruence.
Qed.

(** A final component never holds a slash and is never the lone dot: it
    is empty or a kept component. *)
Lemma name_no_slash f s :
  Py.has_char 47 (Pathlib.name f s) = false ∧ Pathlib.name f s ≠ [46].
Proof.
  destruct (name_cases f s)
    as [->|(drv & root & rel & part & Hroot & -> & Hk & Hsep & Hsub)];
    [done|].
  split; [|by apply kept_spec in Hk as [_ ?]].
  destruct f; [|exact Hsep].
  apply has_char_false. intros Hin.
  apply Hsub, (windows_splitroot_rel_subseteq _ _ _ _ Hroot) in Hin.
  apply elem_of_cons in Hin as [?|Hin]; [done|].
  apply has_char_false in Hin; [done|]. by apply replace_char_removes.
Qed.

Lemma clean_is_a_name raw :
  ∃ f s, _clean_to_filename raw = Pathlib.name f s.
Proof. unfold _clean_to_filename. case_match; eauto. Qed.

(** The normalised name never holds a slash and is never the lone dot:
    it is empty or a kept component.  (A backslash can survive, when the
    Windows reading finds no final component and the POSIX reading takes
    over.) *)
Theorem clean_result_has_no_slash raw :
  Py.has_char 47 (_clean_to_filename raw) = false
  ∧ _clean_to_filename raw ≠ [46].
Proof. destruct (clean_is_a_name raw) as (f & s & ->). apply name_no_slash. Qed.

(** ** Which elements are references *)

Lemma candidate_tags_path tag :
  existsb (λ t, Py.contains (Py.lower t) (Py.lower tag)) candidate_tags
  = Py.contains (Py.lit "path") (Py.lower tag).
Proof.
  assert (∀ t, t ∈ candidate_tags →
            Py.contains (Py.lit "path") (Py.lower t) = true) as Hsub.
  { intros t Ht. unfold candidate_tags in Ht.
    rewrite !elem_of_cons, elem_of_nil in Ht.
    destruct Ht as [->|[->|[->|[->|[]]]]]; reflexivity. }
  destruct (Py.contains (Py.lit "path") (Py.lower tag)) eqn:Hp.
  - apply existsb_exists. exists (Py.lit "Path").
    split; [by left | exact Hp].
  - apply not_true_is_false. intros H.
    apply existsb_exists in H as (t & Ht & H).
    apply list_elem_of_In in Ht.
    rewrite (contains_trans _ _ _ (Hsub t Ht) H) in Hp. done.
Qed.

(** The four markers all hold [Path], so the test on an element's tag
    comes to one case-insensitive search for [path]: any tag with that
    substring is taken for a path reference. *)
Theorem candidate_tags_reduce_to_path tag :
  existsb (λ t, Py.contains (Py.lower t) (Py.lower tag)) candidate_tags
  = Py.contains (Py.lit "path") (Py.lower tag).
Proof. apply candidate_tags_path. Qed.

Lemma truthy_text_Some text t :
  truthy_text text = Some t ↔ text = Some t ∧ t ≠ [].
Proof.
  destruct text as [[|c s]|]; simpl; split; try done.
  - by intros [[= <-] ?].
  - by intros [= <-].
  - by intros [[= <-] _].
  - by intros [? _].
Qed.

Lemma truthy_text_None text :
  truthy_text text = None ↔ text = None ∨ text = Some [].
Proof.
  destruct text as [[|c s]|]; simpl; split; auto; try done.
  by intros [?|?].
Qed.

Lemma visit_spec elem filenames :
  (tag_without_string [elem] ∧ visit elem filenames = ([], Raise AttributeError))
  ∨ (¬ tag_without_string [elem] ∧
     ∃ names, visit elem filenames = ([], Return names) ∧
       ∀ name, name ∈ names ↔ name ∈ filenames ∨ referenced [elem] name).
Proof.
  destruct elem as [tag text children]. unfold visit.
  destruct (truthy_text text) as [t|] eqn:Ht.
  - apply truthy_text_Some in Ht as [-> Hne].
    destruct tag as [tag|].
    + right. split.
      { intros (t' & ch & Hin & _). by apply list_elem_of_singleton in Hin. }
      rewrite candidate_tags_path.
      destruct (Py.contains (Py.lit "path") (Py.lower tag)) eqn:Hp;
        [destruct (Py.has_char 46 (_clean_to_filename t)) eqn:Hdot|];
        eexists; (split; [reflexivity|]); intros name.
      * rewrite elem_of_union, elem_of_singleton. split.
        -- intros [->|?]; [|by left]. right.
           exists tag, t, children. repeat split; try done. by left.
        -- intros [?|(tag' & t' & ch' & Hin & _ & _ & -> & _)]; [by right|].
           apply list_elem_of_singleton in Hin. simplify_eq. by left.
      * split; [by left|].
        intros [?|(tag' & t' & ch' & Hin & _ & _ & Hname & Hd)]; [done|].
        apply list_elem_of_singleton in Hin. simplify_eq. congruence.
      * split; [by left|].
        intros [?|(tag' & t' & ch' & Hin & _ & Hp' & _)]; [done|].
        apply list_elem_of_singleton in Hin. simplify_eq. congruence.
    + left. split; [|done]. exists t, children. split; [by left | done].
  - right. apply truthy_text_None in Ht. split.
    { intros (t' & ch & Hin & Hne).
      apply list_elem_of_singleton in Hin. simplify_eq.
      by destruct Ht as [?|[= ->]]. }
    eexists. split; [reflexivity|]. intros name. split; [by left|].
    intros [?|(tag' & t' & ch' & Hin & Hne & _)]; [done|].
    apply list_elem_of_singleton in Hin. simplify_eq.
    by destruct Ht as [?|[= ->]].
Qed.

Lemma tag_without_string_cons elem elems :
  tag_without_string (elem :: elems)
  ↔ tag_without_string [elem] ∨ tag_without_string elems.
Proof.
  unfold tag_without_string. split.
  - intros (t & ch & Hin & Hne). apply elem_of_cons in Hin as [<-|Hin].
    + left. exists t, ch. split; [by left | done].
    + right. eauto.
  - intros [(t & ch & Hin & Hne)|(t & ch & Hin & Hne)]; exists t, ch.
    + apply list_elem_of_singleton in Hin as ->. split; [by left | done].
    + split; [by right | done].
Qed.

Lemma referenced_cons elem elems name :
  referenced (elem :: elems) name
  ↔ referenced [elem] name ∨ referenced elems name.
Proof.
  unfold referenced. split.
  - intros (tag & t & ch & Hin & H). apply elem_of_cons in Hin as [<-|Hin].
    + left. exists tag, t, ch. split; [by left | done].
    + right. eauto 6.
  - intros [(tag & t & ch & Hin & H)|(tag & t & ch & Hin & H)];
      exists tag, t, ch.
    + apply list_elem_of_singleton in Hin as ->. split; [by left | done].
    + split; [by right | done].
Qed.

Lemma collect_cases elems filenames :
  (tag_without_string elems
   ∧ collect elems filenames = ([], Raise AttributeError))
  ∨ (¬ tag_without_string elems ∧
     ∃ names, collect elems filenames = ([], Return names) ∧
       ∀ name, name ∈ names ↔ name ∈ filenames ∨ referenced elems name).
Proof.
  revert filenames. induction elems as [|elem elems IH]; intros filenames.
  - right. split; [by intros (? & ? & ?%elem_of_nil & _)|].
    exists filenames. split; [done|]. intros name. split; [by left|].
    by intros [?|(? & ? & ? & ?%elem_of_nil & _)].
  - simpl. rewrite bind_eq.
    destruct (visit_spec elem filenames)
      as [[Hbad ->]|(Hok & names & -> & Hnames)].
    + left. split; [|done]. apply tag_without_string_cons. by left.
    + simpl. destruct (IH names) as [[Hbad ->]|(Hok' & names' & -> & Hn')].
      * left. split; [|done]. apply tag_without_string_cons. by right.
      * right. split.
        { rewrite (tag_without_string_cons elem elems). tauto. }
        exists names'. split; [done|]. intros name.
        rewrite Hn', Hnames, (referenced_cons elem elems). tauto.
Qed.

(** The loop over the elements: it raises [AttributeError] exactly when
    some element with text has a tag that is not a string; otherwise it
    returns the names it started with and the normalised texts, those
    with a dot, of the elements whose tag holds [path]. *)
Theorem collect_spec elems filenames :
  (tag_without_string elems
   ∧ collect elems filenames = ([], Raise AttributeError))
  ∨ (¬ tag_without_string elems ∧
     ∃ names, collect elems filenames = ([], Return names) ∧
       ∀ name, name ∈ names ↔ name ∈ filenames ∨ referenced elems name).
Proof. apply collect_cases. Qed.

(** Extraction does not depend on the order in which the elements are
    visited: on any rearrangement of the same elements it ends the same
    way, with the same set or with the same exception. *)
Theorem collect_order_independent elems elems' filenames :
  elems ≡ₚ elems' → collect elems filenames = collect elems' filenames.
Proof.
  intros Hperm.
  assert (tag_without_string elems ↔ tag_without_string elems') as Hbad.
  { unfold tag_without_string. by setoid_rewrite Hperm. }
  assert (∀ name, referenced elems name ↔ referenced elems' name) as Href.
  { intros name. unfold referenced. by setoid_rewrite Hperm. }
  destruct (collect_cases elems filenames) as [[H ->]|(H & names & -> & Hn)],
    (collect_cases elems' filenames) as [[H' ->]|(H' & names' & -> & Hn')];
    try tauto.
  do 2 f_equal. apply set_eq. intros name. rewrite Hn, Hn', Href. done.
Qed.

Lemma collect_order_independent_witness :
  collect (rev (iter Sample.project_tree)) ∅
  = collect (iter Sample.project_tree) ∅.
Proof.
  apply collect_order_independent. symmetry. apply Permutation_rev.
Defined.

(** ** Which tree the references are read from *)

Lemma ET_fromstring_io_Some env content r :
  ET_fromstring env content = Some r →
  ET_fromstring_io env content = ([EvStrictParse], Return r).
Proof. intros H. unfold ET_fromstring_io. rewrite bind_eq. simpl. by rewrite H. Qed.

Lemma lenient_parse_eval env content :
  lenient_parse env (Some content)
  = match lxml env with
    | None => ([], Raise ImportError)
    | Some LET =>
      match Codec.utf_8_encode content with
      | None => ([], Raise UnicodeEncodeError)
      | Some bytes =>
        match LET bytes with
        | Some root => ([EvLenientParse], Return root)
        | None => ([EvLenientParse], Raise ParseError)
        end
      end
    end.
Proof.
  unfold lenient_parse. destruct (lxml env) as [LET|]; simpl; [|done].
  destruct (Codec.utf_8_encode content) as [bytes|]; simpl; [|done].
  by destruct (LET bytes).
Qed.

Lemma parse_prproj_after_strict env project_path t content r1 :
  is_prproj env project_path = true →
  read_content env project_path = (t, Return content) →
  ET_fromstring env content = Some r1 →
  parse_project_filenames env project_path
  = (root_xml ←
       (let '(t1, r) :=
          try_except (lenient_parse env (Some content))
            (content ← load_content (Some content);
             ET_fromstring_io env content) in
        (t ++ [EvStrictParse] ++ t1, r));
     collect (iter root_xml) ∅).
Proof.
  intros Hb Hr Hs. unfold parse_project_filenames. rewrite Hb.
  rewrite (bind_Return _ _ _ _ Hr).
  rewrite (bind_Return _ _ _ _ (ET_fromstring_io_Some _ _ _ Hs)). simpl.
  destruct (try_except _ _) as [t1 [root|e]]; simpl.
  - destruct (collect (iter root) ∅) as [t2 r].
    by rewrite <- !app_assoc.
  - by rewrite <- !app_assoc.
Qed.

Lemma parse_prproj_lenient_tree
    env project_path t content r1 LET bytes r2 :
  is_prproj env project_path = true →
  read_content env project_path = (t, Return content) →
  ET_fromstring env content = Some r1 →
  lxml env = Some LET →
  Codec.utf_8_encode content = Some bytes →
  LET bytes = Some r2 →
  parse_project_filenames env project_path
  = (t ++ [EvStrictParse; EvLenientParse], result (collect (iter r2) ∅)).
Proof.
  intros Hb Hr Hs Hl He Hp.
  rewrite (parse_prproj_after_strict _ _ _ _ _ Hb Hr Hs).
  rewrite lenient_parse_eval, Hl, He, Hp.
  cbn [try_except]. rewrite bind_eq.
  pose proof (collect_trace (iter r2) ∅) as Ht.
  destruct (collect (iter r2) ∅) as [t2 r]. simpl in *. subst t2.
  by rewrite app_nil_r.
Qed.

(** When lxml is installed and its recovering parser returns a tree, the
    references are read from that tree; the tree of the strict parse,
    though it was built first, is not used. *)
Theorem lenient_tree_takes_precedence
    env project_path t content r1 LET bytes r2 :
  is_prproj env project_path = true →
  read_content env project_path = (t, Return content) →
  ET_fromstring env content = Some r1 →
  lxml env = Some LET →
  Codec.utf_8_encode content = Some bytes →
  LET bytes = Some r2 →
  parse_project_filenames env project_path
  = (t ++ [EvStrictParse; EvLenientParse], result (collect (iter r2) ∅)).
Proof. apply parse_prproj_lenient_tree. Qed.

Lemma lenient_tree_takes_precedence_witness :
  parse_project_filenames Sample.env (Py.lit "/work/final.prproj")
  = ([EvOpen (Py.lit "/work/final.prproj")]
     ++ [EvStrictParse; EvLenientParse],
     result (collect (iter Sample.project_tree) ∅)).
Proof.
  apply (lenient_tree_takes_precedence Sample.env
           (Py.lit "/work/final.prproj")
           [EvOpen (Py.lit "/work/final.prproj")] Sample.project_xml
           Sample.project_tree Sample.recovering Sample.project_xml
           Sample.project_tree);
    reflexivity.
Defined.

(** When lxml is not installed, or its parser gives no tree, the strict
    parser is run a second time on the same text and the references are
    read from its tree. *)
Theorem strict_tree_is_the_fallback env project_path t content r1 :
  is_prproj env project_path = true →
  read_content env project_path = (t, Return content) →
  ET_fromstring env content = Some r1 →
  lxml env = None
  ∨ (∃ LET, lxml env = Some LET
            ∧ (Codec.utf_8_encode content ≫= LET) = None) →
  result (parse_project_filenames env project_path)
  = result (collect (iter r1) ∅)
  ∧ ∃ mid,
      trace (parse_project_filenames env project_path)
      = t ++ EvStrictParse :: mid ++ [EvStrictParse]
      ∧ (mid = [] ∨ mid = [EvLenientParse]).
Proof.
  intros Hb Hr Hs Hl.
  rewrite (parse_prproj_after_strict _ _ _ _ _ Hb Hr Hs).
  pose proof (collect_trace (iter r1) ∅) as Ht.
  assert (∃ mid,
            try_except (lenient_parse env (Some content))
              (content ← load_content (Some content);
               ET_fromstring_io env content)
            = (mid ++ [EvStrictParse], Return r1)
            ∧ (mid = [] ∨ mid = [EvLenientParse])) as (mid & -> & Hmid).
  { rewrite lenient_parse_eval. unfold load_content. simpl.
    rewrite (ET_fromstring_io_Some _ _ _ Hs).
    destruct Hl as [->|(LET & -> & Hl)]; simpl.
    - exists []. by split; [|left].
    - destruct (Codec.utf_8_encode content) as [bytes|]; simpl in *.
      + rewrite Hl. simpl. exists [EvLenientParse]. by split; [|right].
      + exists []. by split; [|left]. }
  rewrite bind_eq.
  destruct (collect (iter r1) ∅) as [t2 r]. simpl in *. subst t2.
  split; [done|]. exists mid. by rewrite app_nil_r.
Qed.

Lemma strict_tree_is_the_fallback_witness :
  result (parse_project_filenames Sample.env_without_lxml
            (Py.lit "/work/final.prproj"))
  = result (collect (iter Sample.project_tree) ∅)
  ∧ ∃ mid,
      trace (parse_project_filenames Sample.env_without_lxml
               (Py.lit "/work/final.prproj"))
      = [EvOpen (Py.lit "/work/final.prproj")]
        ++ EvStrictParse :: mid ++ [EvStrictParse]
      ∧ (mid = [] ∨ mid = [EvLenientParse]).
Proof.
  apply (strict_tree_is_the_fallback Sample.env_without_lxml
           (Py.lit "/work/final.prproj")
           [EvOpen (Py.lit "/work/final.prproj")] Sample.project_xml
           Sample.project_tree);
    try reflexivity.
  by left.
Defined.

(** A comment or processing instruction with text in the tree that lxml
    returns makes the extraction fail with [AttributeError]: its tag is
    not a string, and the loop calls [lower] on it. *)
Theorem comment_in_lenient_tree_raises
    env project_path t content r1 LET bytes r2 text children :
  is_prproj env project_path = true →
  read_content env project_path = (t, Return content) →
  ET_fromstring env content = Some r1 →
  lxml env = Some LET →
  Codec.utf_8_encode content = Some bytes →
  LET bytes = Some r2 →
  Elem TagFunc (Some text) children ∈ iter r2 → text ≠ [] →
  parse_project_filenames env project_path
  = (t ++ [EvStrictParse; EvLenientParse], Raise AttributeError).
Proof.
  intros Hb Hr Hs Hl He Hp Hin Hne.
  rewrite (parse_prproj_lenient_tree _ _ _ _ _ _ _ _ Hb Hr Hs Hl He Hp).
  destruct (collect_cases (iter r2) ∅) as [[_ ->]|[Hno _]]; [done|].
  destruct Hno. by exists text, children.
Qed.

Lemma comment_in_lenient_tree_raises_witness :
  parse_project_filenames Sample.env_commented
    (Py.lit "/work/commented.prproj")
  = ([EvOpen (Py.lit "/work/commented.prproj")]
     ++ [EvStrictParse; EvLenientParse],
     Raise AttributeError).
Proof.
  apply (comment_in_lenient_tree_raises Sample.env_commented
           (Py.lit "/work/commented.prproj")
           [EvOpen (Py.lit "/work/commented.prproj")] Sample.commented_xml
           Sample.commented_strict_tree
           (λ bytes, if Py.eqb bytes Sample.commented_xml
                     then Some Sample.commented_tree
                     else Sample.recovering bytes)
           Sample.commented_xml Sample.commented_tree
           (Py.lit " exported ") []);
    try reflexivity.
  - simpl. right. left.
  - discriminate.
Defined.

(** ** The declared set *)

(** Extraction returns only for a path recognised as a compressed
    project, and every name it returns holds a dot, holds no slash, and
    is the normalised text of some element. *)
Theorem declared_names_invariant env project_path t names :
  parse_project_filenames env project_path = (t, Return names) →
  is_prproj env project_path = true
  ∧ ∀ name, name ∈ names →
      Py.has_char 46 name = true ∧ Py.has_char 47 name = false
      ∧ ∃ text, name = _clean_to_filename text.
Proof.
  unfold parse_project_filenames. intros H.
  apply bind_inv_Return in H as (t1 & content & t2 & Hc & H & _).
  apply bind_inv_Return in H as (t3 & root & t4 & Htry & H & _).
  split.
  - destruct (is_prproj env project_path); [done|].
    destruct (is_aepx env project_path); [|done].
    apply bind_inv_Return in Hc as (? & ? & ? & _ & Hc & _).
    injection Hc as _ <-. by rewrite lenient_parse_unbound in Htry.
  - intros name Hin.
    destruct (collect_cases (iter root) ∅)
      as [[_ Hr]|(_ & names' & Hr & Hn)]; rewrite Hr in H; [done|].
    injection H as _ <-. apply Hn in Hin as [?%not_elem_of_empty|Href];
      [done|].
    destruct Href as (tag & text & ch & _ & _ & _ & -> & Hdot).
    split; [done|]. split; [|eauto].
    destruct (clean_is_a_name text) as (f & s & ->). apply name_no_slash.
Qed.

Lemma declared_names_invariant_witness :
  is_prproj Sample.env (Py.lit "/work/final.prproj") = true
  ∧ ∀ name,
      name ∈ ({[Py.lit "clip01.mp4"; Py.lit "b.mov"; Py.lit "a_proxy.mp4"]}
              : gset pystr) →
      Py.has_char 46 name = true ∧ Py.has_char 47 name = false
      ∧ ∃ text, name = _clean_to_filename text.
Proof.
  apply (declared_names_invariant Sample.env (Py.lit "/work/final.prproj")
           [EvOpen (Py.lit "/work/final.prproj"); EvStrictParse;
            EvLenientParse]).
  vm_compute. reflexivity.
Defined.

(** ** Decoded text can always be encoded *)

Lemma emit_Some c rest text :
  Codec.emit c rest = Some text →
  ∃ text', rest = Some text' ∧ text = c :: text'.
Proof. destruct rest as [s|]; simpl; [|done]. intros [= <-]. eauto. Qed.

Lemma on_error_Some e rest text :
  Codec.on_error e rest = Some text → rest = Some text.
Proof. by destruct e. Qed.

Ltac bounds :=
  unfold Codec.is_continuation_byte in *;
  repeat match goal with
  | H : (_ || _) = false |- _ => apply orb_false_iff in H as [? ?]
  | H : negb _ = false |- _ => apply negb_false_iff in H
  | H : (_ && _) = true |- _ => apply andb_true_iff in H as [? ?]
  | H : (_ <? _) = true |- _ => apply N.ltb_lt in H
  | H : (_ <? _) = false |- _ => apply N.ltb_ge in H
  | H : (_ <=? _) = true |- _ => apply N.leb_le in H
  | H : (_ =? _) = false |- _ => apply N.eqb_neq in H
  | H : (_ =? _) = true |- _ => apply N.eqb_eq in H
  end;
  rewrite ?N.shiftl_mul_pow2;
  change (2 ^ 6) with 64; change (2 ^ 12) with 4096;
  change (2 ^ 18) with 262144.

(** The decoders never produce a surrogate code point. *)
Lemma utf_8_decode_no_surrogate_aux e n s text :
  (length s ≤ n)%nat →
  Codec.utf_8_decode e s = Some text →
  Forall (λ c, c < 55296 ∨ 57343 < c) text.
Proof.
  revert s text. induction n as [|n IH]; intros s text Hn H.
  { destruct s; [injection H as <-; constructor | simpl in Hn; lia]. }
  destruct s as [|ch s1]; [injection H as <-; constructor|].
  rewrite utf_8_decode_unfold in H. simpl in Hn.
  repeat case_match; subst; cbn [length] in *;
    try (apply on_error_Some in H;
         first [ injection H as <-; constructor
               | apply IH in H; [exact H | cbn [length]; lia] ]);
    try (apply emit_Some in H as (text' & H & ->);
         constructor; [bounds; lia | apply IH in H; [exact H | lia]]).
Qed.

Lemma utf_8_decode_no_surrogate e s text :
  Codec.utf_8_decode e s = Some text →
  Forall (λ c, c < 55296 ∨ 57343 < c) text.
Proof. by apply (utf_8_decode_no_surrogate_aux e (length s)). Qed.

Lemma translate_newlines_elem_of_aux n s c :
  (length s ≤ n)%nat → c ∈ Codec.translate_newlines s → c = 10 ∨ c ∈ s.
Proof.
  revert s. induction n as [|n IH]; intros s Hn.
  { destruct s; [by intros ?%elem_of_nil | simpl in Hn; lia]. }
  destruct s as [|d s']; [by intros ?%elem_of_nil|]. simpl in Hn.
  cbn [Codec.translate_newlines]. destruct (d =? 13).
  - intros [->|Hin]%elem_of_cons; [by left|].
    destruct s' as [|d' s'']; [by apply elem_of_nil in Hin|].
    simpl in Hn. destruct (d' =? 10).
    + apply IH in Hin as [?|?]; [by left | | lia].
      right. by do 2 right.
    + apply IH in Hin as [?|?]; [by left | | simpl; lia].
      right. by right.
  - intros [->|Hin]%elem_of_cons; [right; by left|].
    apply IH in Hin as [?|?]; [by left | | lia]. right. by right.
Qed.

Lemma translate_newlines_elem_of s c :
  c ∈ Codec.translate_newlines s → c = 10 ∨ c ∈ s.
Proof. by apply (translate_newlines_elem_of_aux (length s)). Qed.

Lemma utf_8_encode_total s :
  Forall (λ c, c < 55296 ∨ 57343 < c) s → is_Some (Codec.utf_8_encode s).
Proof.
  induction 1 as [|c s Hc _ [bs IH]]; [by eexists|].
  simpl. rewrite IH.
  assert (is_Some (Codec.encode_cp c)) as [b ->]; [|by eexists].
  unfold Codec.encode_cp.
  destruct (c <? 128); [by eexists|].
  destruct (c <? 2048); [by eexists|].
  destruct ((55296 <=? c) && (c <=? 57343)) eqn:E.
  - bounds. lia.
  - destruct (c <? 65536); by eexists.
Qed.

Lemma read_content_no_surrogate env project_path t content :
  read_content env project_path = (t, Return content) →
  Forall (λ c, c < 55296 ∨ 57343 < c) content.
Proof.
  unfold read_content. intros H.
  apply bind_inv_Return in H as (t1 & f & t2 & _ & H & _).
  destruct (Py.eqb _ _).
  - unfold gzip_read_text in H.
    apply bind_inv_Return in H as (? & raw & ? & _ & H & _).
    apply bind_inv_Return in H as (? & text & ? & Hd & H & _).
    injection H as _ <-.
    destruct (Codec.utf_8_decode Codec.Strict raw) as [text'|] eqn:E;
      [|done].
    injection Hd as _ <-. apply utf_8_decode_no_surrogate in E.
    rewrite Forall_forall in E. apply Forall_forall. intros c Hc.
    apply translate_newlines_elem_of in Hc as [->|Hc]; [left; lia | auto].
  - unfold raw_read_text, Codec.utf_8_sig_decode in H.
    destruct (Py.eqb _ _);
      match type of H with
      | or_raise _ ?d = _ => destruct d as [text'|] eqn:E; [|done]
      end;
      injection H as _ <-; by apply utf_8_decode_no_surrogate in E.
Qed.

(** Text read from a project file can always be encoded again: in the
    lenient parse [content.encode] never raises [UnicodeEncodeError], so
    the only ways it can fail are a missing lxml and a parser that
    returns no tree. *)
Theorem lenient_parse_never_fails_to_encode env project_path t content :
  read_content env project_path = (t, Return content) →
  is_Some (Codec.utf_8_encode content)
  ∧ ∀ t' e, lenient_parse env (Some content) = (t', Raise e) →
            (e = ImportError ∧ lxml env = None ∧ t' = [])
            ∨ (e = ParseError ∧ t' = [EvLenientParse]).
Proof.
  intros H. apply read_content_no_surrogate, utf_8_encode_total in H.
  split; [done|]. destruct H as [bytes Hb]. intros t' e.
  rewrite lenient_parse_eval, Hb.
  destruct (lxml env) as [LET|]; [destruct (LET bytes)|];
    intros [= <- <-]; auto.
Qed.

Lemma lenient_parse_never_fails_to_encode_witness :
  is_Some (Codec.utf_8_encode
             (Py.lit "<P><Path>" ++ Py.lit "a.mp4</Path></P>"))
  ∧ ∀ t' e,
      lenient_parse Sample.env
        (Some (Py.lit "<P><Path>" ++ Py.lit "a.mp4</Path></P>"))
      = (t', Raise e) →
      (e = ImportError ∧ lxml Sample.env = None ∧ t' = [])
      ∨ (e = ParseError ∧ t' = [EvLenientParse]).
Proof.
  apply (lenient_parse_never_fails_to_encode Sample.env
           (Py.lit "/work/raw.prproj") [EvOpen (Py.lit "/work/raw.prproj")]).
  vm_compute. reflexivity.
Defined.

(** ** Missing files and folders *)


Lemma not_ignored_empty : not_ignored ∅ = ∅.
Proof.
  apply set_eq. intros x. rewrite elem_of_not_ignored, elem_of_empty. tauto.
Qed.

Lemma sorted_empty : sorted ∅ = [].
Proof.
  apply Permutation_nil_r. rewrite sorted_Permutation.
  by rewrite elements_empty.
Qed.



(** A folder path that leads to a file instead of a directory, or to an
    empty directory, is not an error: the scan finds nothing, so nothing
    is matched or extra and every declared name that is not ignored is
    reported missing. *)
Theorem folder_without_entries_reports_all_missing
    env project_file folder_path t declared :
  parse_project_filenames env project_file = (t, Return declared) →
  (∃ data, os_stat env folder_path = Some (RegularFile data))
  ∨ os_stat env folder_path = Some Special
  ∨ os_stat env folder_path = Some (Directory []) →
  compare_filenames env project_file folder_path
  = (t ++ [EvScan folder_path],
     Return ([], sorted (not_ignored declared), [])).
Proof.
  intros Hp Hno. unfold compare_filenames.
  rewrite (bind_Return _ _ _ _ Hp).
  assert (scan_folder_filenames env folder_path
          = ([EvScan folder_path], Return ∅)) as Hs.
  { unfold scan_folder_filenames, rglob_path. rewrite bind_eq. simpl.
    by destruct Hno as [[data ->] | [-> | ->]]. }
  rewrite (bind_Return _ _ _ _ Hs). simpl.
  rewrite not_ignored_empty.
  assert (not_ignored declared ∩ ∅ = (∅ : gset pystr)) as ->.
  { apply set_eq. intros x.
    rewrite elem_of_intersection, elem_of_empty. tauto. }
  assert (not_ignored declared ∖ ∅ = not_ignored declared) as ->.
  { apply set_eq. intros x.
    rewrite elem_of_difference, elem_of_empty. tauto. }
  assert (∅ ∖ not_ignored declared = (∅ : gset pystr)) as ->.
  { apply set_eq. intros x.
    rewrite elem_of_difference, elem_of_empty. tauto. }
  by rewrite sorted_empty.
Qed.

Lemma folder_without_entries_reports_all_missing_witness :
  compare_filenames Sample.env (Py.lit "/work/final.prproj")
    (Py.lit "/work/notes.txt")
  = ([EvOpen (Py.lit "/work/final.prproj"); EvStrictParse; EvLenientParse]
     ++ [EvScan (Py.lit "/work/notes.txt")],
     Return ([], sorted (not_ignored
                           {[Py.lit "clip01.mp4"; Py.lit "b.mov";
                             Py.lit "a_proxy.mp4"]}), [])).
Proof.
  apply (folder_without_entries_reports_all_missing Sample.env
           (Py.lit "/work/final.prproj") (Py.lit "/work/notes.txt")).
  - vm_compute. reflexivity.
  - left. eexists. reflexivity.
Defined.

(** ** The project label *)

Lemma parse_parts_shape f s :
  ∃ drv root parsed,
    Pathlib.parse_parts f s = (drv, root, anchor_of drv root ++ parsed).
Proof.
  unfold Pathlib.parse_parts. destruct (Pathlib.nonempty s).
  - destruct (Pathlib.splitroot f _) as [[drv root] rel]. by eexists _, _, _.
  - by exists [], [], [].
Qed.

(** With at most one part after the anchor, every branch of
    [extract_project_label] gives the empty string. *)
Lemma label_short env s drv root parsed :
  Pathlib.parse_parts (os_flavour env) s
  = (drv, root, anchor_of drv root ++ parsed) →
  (length parsed ≤ 1)%nat →
  extract_project_label env s = [].
Proof.
  intros H Hlen. unfold extract_project_label, PurePath.of_str.
  rewrite H. unfold anchor_of.
  destruct parsed as [|x [|y l]]; [| |simpl in Hlen; lia];
    destruct (Pathlib.nonempty drv || Pathlib.nonempty root) eqn:Ha;
    unfold PurePath.stem; simpl; rewrite ?Ha; simpl; rewrite ?Ha; done.
Qed.

Lemma windows_splitroot_bare s drv root rel :
  Py.has_char 92 s = false →
  Pathlib.windows_splitroot s = (drv, root, rel) →
  Py.has_char 92 rel = false.
Proof.
  intros H92. assert (rel0 := H92). apply has_char_false in H92.
  rewrite windows_splitroot_simple.
  - intros H. assert (rel ⊆ s) as Hsub.
    { repeat case_match; simplify_eq;
        unfold Py.lstrip_chars;
        try (etrans; [apply lstrip_by_subseteq|]);
        try apply subseteq_drop; done. }
    apply has_char_false. intros Hin. by apply H92, Hsub.
  - apply andb_false_iff. left. unfold Py.eqb.
    apply bool_decide_eq_false_2. intros E.
    by apply slice_singleton_elem_of in E.
Qed.

Lemma parse_parts_bare f s :
  Py.has_char 47 s = false → Py.has_char 92 s = false →
  ∃ drv root parsed,
    Pathlib.parse_parts f s = (drv, root, anchor_of drv root ++ parsed)
    ∧ (length parsed ≤ 1)%nat.
Proof.
  intros H47 H92. unfold Pathlib.parse_parts.
  destruct (Pathlib.nonempty s); [|exists [], [], []; split; [done | simpl; lia]].
  destruct (Pathlib.splitroot f _) as [[drv root] rel] eqn:Hroot.
  assert (Py.has_char (Pathlib.sep f) rel = false) as ->.
  { destruct f; simpl in *.
    - rewrite (replace_char_absent _ _ _ H47) in Hroot.
      by apply (windows_splitroot_bare s drv root).
    - rewrite (posix_splitroot_plain _ H47) in Hroot. by simplify_eq. }
  eexists _, _, _. split; [reflexivity|].
  destruct (Pathlib.kept rel); simpl; lia.
Qed.

(** The label of a project file that lies two folders deep or more:
    when the folder that holds the file has the marker in its name, the
    label is the name of the folder above it, otherwise it is the name of
    the folder that holds the file. *)
Theorem label_of_packed_project env s drv root pre proj pack file :
  Pathlib.parse_parts (os_flavour env) s
  = (drv, root, pre ++ [proj; pack; file]) →
  pre ≠ [] ∨ (drv = [] ∧ root = []) →
  extract_project_label env s
  = if Py.contains PACK_MARKER pack then proj else pack.
Proof.
  intros H Hpre. unfold extract_project_label, PurePath.of_str. rewrite H.
  set (anchored := Pathlib.nonempty drv || Pathlib.nonempty root).
  assert (PurePath.len_parents (drv, root, pre ++ [proj; pack; file])
          = (if anchored then 2 + length pre else 3 + length pre)%nat) as ->.
  { unfold PurePath.len_parents. fold anchored.
    rewrite length_app. simpl. destruct anchored; lia. }
  assert (PurePath.parent (drv, root, pre ++ [proj; pack; file])
          = (drv, root, pre ++ [proj; pack])) as ->.
  { unfold PurePath.parent.
    replace (pre ++ [proj; pack; file]) with ((pre ++ [proj; pack]) ++ [file])
      by (by rewrite <- app_assoc).
    rewrite removelast_last, !length_app. simpl.
    by replace (length pre + 2 + 1 =? 1)%nat with false
      by (symmetry; apply Nat.eqb_neq; lia). }
  assert (PurePath.name (drv, root, pre ++ [proj; pack]) = pack) as ->.
  { unfold PurePath.name. fold anchored.
    replace (pre ++ [proj; pack]) with ((pre ++ [proj]) ++ [pack])
      by (by rewrite <- app_assoc).
    rewrite last_last, !length_app. simpl.
    by replace (length pre + 1 + 1 =? (if anchored then 1 else 0))%nat
      with false by (symmetry; apply Nat.eqb_neq; destruct anchored; lia). }
  assert (PurePath.parent (drv, root, pre ++ [proj; pack])
          = (drv, root, pre ++ [proj])) as ->.
  { unfold PurePath.parent.
    replace (pre ++ [proj; pack]) with ((pre ++ [proj]) ++ [pack])
      by (by rewrite <- app_assoc).
    rewrite removelast_last, !length_app. simpl.
    by replace (length pre + 1 + 1 =? 1)%nat with false
      by (symmetry; apply Nat.eqb_neq; lia). }
  assert (PurePath.name (drv, root, pre ++ [proj]) = proj) as ->.
  { unfold PurePath.name. fold anchored.
    rewrite last_last, length_app. simpl.
    replace (length pre + 1 =? (if anchored then 1 else 0))%nat with false;
      [done|].
    symmetry. apply Nat.eqb_neq.
    destruct Hpre as [Hpre | [-> ->]].
    - destruct pre; [done|]. simpl. destruct anchored; lia.
    - unfold anchored. simpl. lia. }
  replace (2 <=? (if anchored then 2 + length pre else 3 + length pre))%nat
    with true by (symmetry; apply Nat.leb_le; destruct anchored; lia).
  replace (1 <=? (if anchored then 2 + length pre else 3 + length pre))%nat
    with true by (symmetry; apply Nat.leb_le; destruct anchored; lia).
  by destruct (Py.contains PACK_MARKER pack).
Qed.

Lemma label_of_packed_project_witness :
  extract_project_label Sample.env
    (Py.lit "/jobs/SpringAd/07_" ++ PACK_MARKER ++ Py.lit "/final.prproj")
  = (if Py.contains PACK_MARKER (Py.lit "07_" ++ PACK_MARKER)
     then Py.lit "SpringAd" else Py.lit "07_" ++ PACK_MARKER).
Proof.
  apply (label_of_packed_project Sample.env _ [] [47]
           [[47]; Py.lit "jobs"] (Py.lit "SpringAd")
           (Py.lit "07_" ++ PACK_MARKER) (Py.lit "final.prproj")).
  - vm_compute. reflexivity.
  - left. discriminate.
Defined.

(** The label of a path without a separator, such as a bare file name,
    is the empty string: the path has one parent, the current folder,
    whose name is empty, so the file's stem is not used. *)
Theorem label_of_bare_name_is_empty env s :
  Py.has_char 47 s = false → Py.has_char 92 s = false →
  extract_project_label env s = [].
Proof.
  intros H47 H92.
  destruct (parse_parts_bare (os_flavour env) s H47 H92)
    as (drv & root & parsed & H & Hlen).
  by apply (label_short env s drv root parsed).
Qed.

Lemma label_of_bare_name_is_empty_witness :
  extract_project_label Sample.env (Py.lit "final.prproj") = [].
Proof.
  apply label_of_bare_name_is_empty; reflexivity.
Defined.

(** The last branch of [extract_project_label], the stem of the path, is
    reached only by a path without parents, and such a path has no name:
    the branch always gives the empty string. *)
Theorem label_fallback_is_empty env s :
  PurePath.len_parents (PurePath.of_str (os_flavour env) s) = 0%nat →
  extract_project_label env s = []
  ∧ PurePath.stem (PurePath.of_str (os_flavour env) s) = [].
Proof.
  unfold PurePath.of_str. intros H0.
  destruct (parse_parts_shape (os_flavour env) s)
    as (drv & root & parsed & H).
  assert (parsed = []) as ->.
  { rewrite H in H0. unfold PurePath.len_parents, anchor_of in H0.
    destruct (Pathlib.nonempty drv || Pathlib.nonempty root);
      destruct parsed; simpl in H0; done. }
  split.
  - apply (label_short env s drv root []); [done | simpl; lia].
  - rewrite H. unfold PurePath.stem, PurePath.name, anchor_of.
    by destruct (Pathlib.nonempty drv || Pathlib.nonempty root).
Qed.

Lemma label_fallback_is_empty_witness :
  extract_project_label Sample.env (Py.lit "/") = []
  ∧ PurePath.stem (PurePath.of_str (os_flavour Sample.env) (Py.lit "/")) = [].
Proof.
  apply label_fallback_is_empty. reflexivity.
Defined.
